(** * cheroot/workers/threadpool.py: worker threads and their pool

  A shallow embedding of [WorkerThread] and [ThreadPool].  Python objects
  are records of the attributes the code reads; an object that is shared
  (a thread in the pool's list) is named by its identity and looked up in
  a store.  Clock readings are rationals.  What other threads, the sockets
  and the clock do is an explicit argument of each operation, and so is
  what the application does to [server.stats['Enabled']] between two
  readings of it.

  Left out: the registration of the worker's statistics with the server
  (line 163), the thread names, signals delivered to the thread that runs
  [stop] (lines 319-326), and exceptions raised by [close()], [select] or
  [shutdown()]. *)

From Stdlib Require Import List ZArith QArith Qminmax Lia Lqa Bool Arith.
Import ListNotations.

(** ** Python values used by the module *)

Module Py.

(** The exceptions that occur.  [Error] stands for any other subclass of
    [Exception] raised by a collaborator; [KeyboardInterrupt] and
    [SystemExit] derive from [BaseException] only. *)
Inductive exn :=
  | KeyError | AttributeError | TypeError | ValueError | Full | Error
  | KeyboardInterrupt | SystemExit.

(** [except Exception] catches [e]. *)
Definition is_Exception (e : exn) : bool :=
  match e with
  | KeyboardInterrupt | SystemExit => false
  | _ => true
  end.

Inductive result (A : Type) :=
  | Ok (a : A)
  | Raise (e : exn).
Arguments Ok {A} a.
Arguments Raise {A} e.

(** [range(n)] runs its loop body [Z.to_nat n] times: never for [n <= 0]. *)
Definition range_len (n : Z) : nat := Z.to_nat n.

(** [x or y] on numbers: [x] unless it is zero. *)
Definition or_ (x y : Q) : Q := if Qeq_bool x 0 then y else x.

(** [x < y] on clock readings *)
Definition Qlt_bool (x y : Q) : bool := negb (Qle_bool y x).

(** [l.remove(x)]: drops the first element equal to [x]. *)
Fixpoint list_remove (x : nat) (l : list nat) : list nat :=
  match l with
  | [] => []
  | y :: l' => if Nat.eqb x y then l' else y :: list_remove x l'
  end.

(** A [dict] keyed by object identity, in insertion order. *)
Module Dict.
Section Dict.
Context {V : Type}.
Definition t := list (nat * V).

Fixpoint get (d : t) (k : nat) : option V :=
  match d with
  | [] => None
  | (k', v) :: d' => if Nat.eqb k k' then Some v else get d' k
  end.

(** [d[k] = v]: overwrites in place, or appends a new key. *)
Fixpoint set (d : t) (k : nat) (v : V) : t :=
  match d with
  | [] => [(k, v)]
  | (k', v') :: d' =>
    if Nat.eqb k k' then (k', v) :: d' else (k', v') :: set d' k v
  end.

Fixpoint remove (d : t) (k : nat) : t :=
  match d with
  | [] => []
  | (k', v') :: d' =>
    if Nat.eqb k k' then d' else (k', v') :: remove d' k
  end.

(** [d.pop(k)]: [KeyError] when the key is absent. *)
Definition pop (d : t) (k : nat) : result t :=
  match get d k with
  | Some _ => Ok (remove d k)
  | None => Raise KeyError
  end.

Definition keys (d : t) : list nat := map fst d.
Definition values (d : t) : list V := map snd d.
End Dict.
Arguments t : clear implicits.
End Dict.

End Py.

(** ** Connections (the collaborator [HTTPConnection]) *)

Module Conn.
Abbreviation Sock := nat (only parsing).

(** The attributes of a connection that the worker and the pool read.
    [ident] is the object's identity, [socket] the identity of its socket. *)
Record t := mk {
  ident : nat;
  socket : Sock;
  requests_seen : Z;
  rfile_bytes_read : Z;
  wfile_bytes_written : Z;
  rfile_closed : bool
}.

(** The counters after a call of [communicate()] mutated the object. *)
Definition with_counters (c : t) (n : Z * Z * Z) : t :=
  let '(r, br, bw) := n in
  mk (ident c) (socket c) r br bw (rfile_closed c).
End Conn.

(** ** WorkerThread *)

Module WorkerThread.
Import Py.

(** The attribute of the server that the expiry sweep reads:
    [server.timeout].  The flag [server.stats['Enabled']] is read anew at
    each call of a function under [if_stats], and the application may have
    changed it in between: its readings belong to the surroundings below. *)
Record Server := mkServer {
  timeout : Q
}.

(** The attributes of a [WorkerThread] object (lines 43-68).  [conn] holds
    the connection object as it is when the attribute is read. *)
Record attrs := mkAttrs {
  ready : bool;
  conn : option Conn.t;
  requests_seen : Z;
  bytes_read : Z;
  bytes_written : Z;
  start_time : option Q;
  work_time : Q
}.

(** Calls on a connection and removals from the owned-set, in program
    order. *)
Inductive event :=
| Ev_communicate (c : nat)
| Ev_close (c : nat)
| Ev_pop (s : Conn.Sock).

(** What [run] mutates: the thread object, its local dict [conn_socks]
    (socket -> (connection, last-active time)), the server's [interrupt]
    slot, and the calls made so far. *)
Record state := mkState {
  self : attrs;
  conn_socks : Dict.t (Conn.t * Q);
  interrupt : option exn;
  log : list event
}.

Definition set_self (w : attrs) (s : state) : state :=
  mkState w (conn_socks s) (interrupt s) (log s).

Definition set_conn_socks (d : Dict.t (Conn.t * Q)) (s : state) : state :=
  mkState (self s) d (interrupt s) (log s).

Definition with_conn (c : option Conn.t) (w : attrs) : attrs :=
  mkAttrs (ready w) c (requests_seen w) (bytes_read w) (bytes_written w)
          (start_time w) (work_time w).

Definition with_start_time (t : option Q) (w : attrs) : attrs :=
  mkAttrs (ready w) (conn w) (requests_seen w) (bytes_read w)
          (bytes_written w) t (work_time w).

(** Statements that mutate the state and may raise: the state is kept when
    an exception leaves. *)
Definition M (A : Type) : Type := state -> state * result A.

Definition ret {A} (a : A) : M A := fun s => (s, Ok a).

Definition bind {A B} (m : M A) (k : A -> M B) : M B :=
  fun s =>
    match m s with
    | (s', Ok a) => k a s'
    | (s', Raise e) => (s', Raise e)
    end.

Definition raise {A} (e : exn) : M A := fun s => (s, Raise e).

Definition emit (ev : event) : M unit :=
  fun s => (mkState (self s) (conn_socks s) (interrupt s) (log s ++ [ev]), Ok tt).

Definition modify (f : state -> state) : M unit := fun s => (f s, Ok tt).

Notation "x <- m ;; k" := (bind m (fun x => k))
  (at level 61, m at next level, right associativity).
Notation "m ;; k" := (bind m (fun _ => k))
  (at level 61, right associativity).

(** What the surroundings answer during one turn of the loop of [run]:
    descriptors and readiness of the sockets, the outcome of
    [conn.communicate()] in [process_conns] (the connection's counters after
    the call, and the exception if it raised) and in [close_conns], the
    clock readings of lines 109, 154, 117, 175 and 177, and the value of
    [server.stats['Enabled']] as line 103 finds it when a connection is
    entered (line 147) and when it is left (line 155). *)
Record Env := mkEnv {
  fileno : Conn.Sock -> Z;
  readable : Conn.Sock -> bool;
  communicate : Conn.t -> (Z * Z * Z) * option exn;
  flush : Conn.t -> option exn;
  t_start : Conn.t -> Q;
  t_refresh : Conn.t -> Q;
  t_close : Conn.t -> Q;
  t_get : Q;
  t_sweep : Q;
  enabled_at_start : Conn.t -> bool;
  enabled_at_close : Conn.t -> bool
}.

(** [log_start_stats] under [if_stats] (lines 99-109); [enabled] is
    what line 103 reads. *)
Definition log_start_stats (enabled : bool) (now : Q) : M unit :=
  if enabled
  then modify (fun s => set_self (with_start_time (Some now) (self s)) s)
  else ret tt.

(** [log_close_stats] under [if_stats] (lines 111-118).  Line 114 raises
    when [self.conn] is [None]; line 117 raises when no timer runs, after
    lines 114-116 have added the counters of the connection. *)
Definition log_close_stats (enabled : bool) (now : Q) : M unit :=
  if enabled
  then fun s =>
    let w := self s in
    match conn w, start_time w with
    | None, _ => (s, Raise AttributeError)
    | Some c, None =>
        (set_self
           (mkAttrs (ready w) (conn w)
              (requests_seen w + Conn.requests_seen c)
              (bytes_read w + Conn.rfile_bytes_read c)
              (bytes_written w + Conn.wfile_bytes_written c)
              None
              (work_time w)) s, Raise TypeError)
    | Some c, Some t0 =>
        (set_self
           (mkAttrs (ready w) (conn w)
              (requests_seen w + Conn.requests_seen c)
              (bytes_read w + Conn.rfile_bytes_read c)
              (bytes_written w + Conn.wfile_bytes_written c)
              None
              (work_time w + (now - t0))) s, Ok tt)
    end
  else ret tt.

(** [conn_expired] (lines 120-123). *)
Definition conn_expired (srv : Server) (last_active cur_time : Q) : bool :=
  Qlt_bool (timeout srv) (cur_time - last_active).

(** [get_expired_conns] (lines 125-129): the generator walks a snapshot of
    the values, so the connections it yields are those of this list. *)
Definition get_expired_conns (srv : Server) (d : Dict.t (Conn.t * Q))
    (cur_time : Q) : list Conn.t :=
  map fst (filter (fun v => conn_expired srv (snd v) cur_time) (Dict.values d)).

Definition pop_conn (k : Conn.Sock) : M unit :=
  fun s =>
    match Dict.pop (conn_socks s) k with
    | Ok d => (mkState (self s) d (interrupt s) (log s ++ [Ev_pop k]), Ok tt)
    | Raise e => (s, Raise e)
    end.

(** [close_conns] (lines 131-136). *)
Fixpoint close_conns (env : Env) (conn_list : list Conn.t) : M unit :=
  match conn_list with
  | [] => ret tt
  | c :: rest =>
      emit (Ev_communicate (Conn.ident c)) ;;
      match flush env c with
      | Some e => raise e
      | None =>
          emit (Ev_close (Conn.ident c)) ;;
          pop_conn (Conn.socket c) ;;
          close_conns env rest
      end
  end.

(** The sockets [select] reports (lines 140-143): the keys with a valid
    descriptor that are ready to read, in the order of the dict. *)
Definition rlist (env : Env) (d : Dict.t (Conn.t * Q)) : list Conn.Sock :=
  let socks := filter (fun sck => (-1 <? fileno env sck)%Z) (Dict.keys d) in
  match socks with
  | [] => []
  | _ => filter (readable env) socks
  end.

(** The body of the loop of [process_conns] up to the call of
    [communicate()] (lines 145-149). *)
Definition begin_process (env : Env) (sock : Conn.Sock) : M Conn.t :=
  fun s =>
    match Dict.get (conn_socks s) sock with
    | None => (s, Raise KeyError)
    | Some (c, _) =>
        (modify (fun s => set_self (with_conn (Some c) (self s)) s) ;;
         log_start_stats (enabled_at_start env c) (t_start env c) ;;
         emit (Ev_communicate (Conn.ident c)) ;;
         ret c) s
    end.

(** The same body from the moment [communicate()] comes back
    (lines 150-156); [out] is what the call did. *)
Definition end_process (env : Env) (c : Conn.t)
    (out : (Z * Z * Z) * option exn) : M unit :=
  let c' := Conn.with_counters c (fst out) in
  modify (fun s => set_self (with_conn (Some c') (self s)) s) ;;
  match snd out with
  | None =>
      modify (fun s =>
        set_conn_socks
          (Dict.set (conn_socks s) (Conn.socket c') (c', t_refresh env c)) s)
  | Some e =>
      if is_Exception e
      then (emit (Ev_close (Conn.ident c')) ;; pop_conn (Conn.socket c'))
      else raise e
  end ;;
  log_close_stats (enabled_at_close env c) (t_close env c) ;;
  modify (fun s => set_self (with_conn None (self s)) s).

Definition process_one (env : Env) (sock : Conn.Sock) : M unit :=
  c <- begin_process env sock ;;
  end_process env c (communicate env c).

Fixpoint for_each {A} (body : A -> M unit) (l : list A) : M unit :=
  match l with
  | [] => ret tt
  | a :: l' => body a ;; for_each body l'
  end.

(** [process_conns] (lines 138-156). *)
Definition process_conns (env : Env) : M unit :=
  fun s => for_each (process_one env) (rlist env (conn_socks s)) s.

(** *** The thread as a machine

    [run] (lines 158-180), cut at the points where another thread can look
    at the worker: before [requests.get], before each connection of
    [rlist], inside [communicate()], and before the expiry sweep. *)

(** What [self.server.requests.get(block=True, timeout=0.01)] gave:
    [queue.Empty], or an item; [None] is [_SHUTDOWNREQUEST]. *)
Inductive got :=
| Empty
| Item (x : option Conn.t).

Inductive pc :=
| Created
| AtGet
| InLoop (rl : list Conn.Sock)
| InCommunicate (c : Conn.t) (rest : list Conn.Sock)
| AtSweep
| Returned
| Interrupted
| Crashed (e : exn).

Record thread := mkThread {
  at_pc : pc;
  st : state
}.

(** A fresh [WorkerThread] (lines 61-68), started. *)
Definition init : thread :=
  mkThread Created
    (mkState (mkAttrs false None 0 0 0 None 0) [] None []).

(** An exception leaves [run]: lines 179-180 record an interrupt on the
    server; anything else ends the thread uncaught. *)
Definition leave (e : exn) (s : state) : thread :=
  if is_Exception e
  then mkThread (Crashed e) s
  else mkThread Interrupted
         (mkState (self s) (conn_socks s) (Some e) (log s)).

Definition continue_at (p : pc) (r : state * result unit) : thread :=
  match r with
  | (s, Ok _) => mkThread p s
  | (s, Raise e) => leave e s
  end.

(** One move of the thread, from a cut to the next. *)
Definition step (srv : Server) (env : Env) (g : got) (th : thread) : thread :=
  let s := st th in
  match at_pc th with
  | Created =>
      let w := self s in
      mkThread AtGet
        (mkState (mkAttrs true (conn w) (requests_seen w) (bytes_read w)
                    (bytes_written w) (start_time w) (work_time w))
                 [] (interrupt s) (log s))
  | AtGet =>
      match g with
      | Empty => mkThread (InLoop (rlist env (conn_socks s))) s
      | Item None => mkThread Returned s
      | Item (Some c) =>
          let d := Dict.set (conn_socks s) (Conn.socket c) (c, t_get env) in
          mkThread (InLoop (rlist env d)) (set_conn_socks d s)
      end
  | InLoop [] => mkThread AtSweep s
  | InLoop (sock :: rest) =>
      match begin_process env sock s with
      | (s', Ok c) => mkThread (InCommunicate c rest) s'
      | (s', Raise e) => leave e s'
      end
  | InCommunicate c rest =>
      continue_at (InLoop rest) (end_process env c (communicate env c) s)
  | AtSweep =>
      continue_at AtGet
        (close_conns env
           (get_expired_conns srv (conn_socks s) (t_sweep env)) s)
  | Returned | Interrupted | Crashed _ => th
  end.

(** [run] (lines 158-180) against the given surroundings, one triple for
    each move. *)
Definition run (moves : list (Server * Env * got)) : thread :=
  fold_left (fun th m => step (fst (fst m)) (snd (fst m)) (snd m) th)
            moves init.

Inductive reachable : thread -> Prop :=
| reach_init : reachable init
| reach_step srv env g th : reachable th -> reachable (step srv env g th).

(** [Thread.isAlive()] of a started thread: [run] has not ended. *)
Definition isAlive (th : thread) : bool :=
  match at_pc th with
  | Returned | Interrupted | Crashed _ => false
  | _ => true
  end.

(** The thread is inside the call [conn.communicate()] of [process_conns]. *)
Definition in_process (th : thread) : bool :=
  match at_pc th with
  | InCommunicate _ _ => true
  | _ => false
  end.

(** *** The entries of [self.stats] (lines 69-96), read at time [now] *)

(** [self.start_time is None and trueyzero or x]: nothing is added while no
    timer runs, else the live figure [x] of [self.conn]. *)
Definition live_part {A} (w : attrs) (zero : A) (x : Conn.t -> A) : result A :=
  match start_time w with
  | None => Ok zero
  | Some _ =>
      match conn w with
      | Some c => Ok (x c)
      | None => Raise AttributeError
      end
  end.

Definition map_result {A B} (f : A -> B) (r : result A) : result B :=
  match r with
  | Ok a => Ok (f a)
  | Raise e => Raise e
  end.

Definition stat_Requests (w : attrs) : result Z :=
  map_result (Z.add (requests_seen w)) (live_part w 0%Z Conn.requests_seen).

Definition stat_Bytes_Read (w : attrs) : result Z :=
  map_result (Z.add (bytes_read w)) (live_part w 0%Z Conn.rfile_bytes_read).

Definition stat_Bytes_Written (w : attrs) : result Z :=
  map_result (Z.add (bytes_written w))
    (live_part w 0%Z Conn.wfile_bytes_written).

Definition stat_Work_Time (w : attrs) (now : Q) : Q :=
  match start_time w with
  | None => work_time w
  | Some t0 => work_time w + (now - t0)
  end.

(** [1e-6] *)
Definition eps : Q := 1 # 1000000.

(** The divisor of both throughputs: [s['Work Time'](s) or 1e-6]. *)
Definition divisor (w : attrs) (now : Q) : Q := or_ (stat_Work_Time w now) eps.

Definition stat_Read_Throughput (w : attrs) (now : Q) : result Q :=
  map_result (fun b => inject_Z b / divisor w now) (stat_Bytes_Read w).

Definition stat_Write_Throughput (w : attrs) (now : Q) : result Q :=
  map_result (fun b => inject_Z b / divisor w now) (stat_Bytes_Written w).

End WorkerThread.

(** ** The shared queue ([queue.Queue] of the standard library) *)

Module Queue.
Import Py.

(** [None] is [_SHUTDOWNREQUEST] (line 31). *)
Definition item := option Conn.t.

Record t := mk {
  maxsize : Z;
  items : list item
}.

Definition full (q : t) : bool :=
  ((0 <? maxsize q) && (maxsize q <=? Z.of_nat (length (items q))))%Z.

Inductive put_outcome :=
| Put_done (q' : t) (waited : Q)
| Put_raises (e : exn) (waited : Q)
| Put_blocks.

(** [q.put(x, block=True, timeout)], as the standard library documents it:
    an unbounded queue ([maxsize <= 0]) takes the item at once; a bounded
    one refuses a negative timeout, takes the item at once when it has
    room, and otherwise waits for a consumer to take the head item.
    [slot_after] is the time until a consumer does so ([None]: none does);
    with a timeout the wait ends in [queue.Full] unless the slot comes
    first, without one it lasts until the slot comes. *)
Definition put (q : t) (x : item) (timeout : option Q)
    (slot_after : option Q) : put_outcome :=
  let append := mk (maxsize q) (items q ++ [x]) in
  let shifted := mk (maxsize q) (tl (items q) ++ [x]) in
  if (0 <? maxsize q)%Z then
    match timeout with
    | None =>
        if full q then
          match slot_after with
          | Some d => Put_done shifted d
          | None => Put_blocks
          end
        else Put_done append 0
    | Some tmo =>
        if Qlt_bool tmo 0 then Put_raises ValueError 0
        else if full q then
          match slot_after with
          | Some d => if Qlt_bool d tmo then Put_done shifted d
                      else Put_raises Full tmo
          | None => Put_raises Full tmo
          end
        else Put_done append 0
    end
  else Put_done append 0.

Definition qsize (q : t) : nat := length (items q).

End Queue.

(** ** ThreadPool *)

Module ThreadPool.
Import Py.

(** The identity of a [WorkerThread] object. *)
Abbreviation ref := nat (only parsing).

(** The thread objects, by identity. *)
Definition store := ref -> WorkerThread.thread.

Definition update (sigma : store) (t : ref) (th : WorkerThread.thread)
    : store :=
  fun t' => if Nat.eqb t' t then th else sigma t'.

(** The attributes set by [__init__] (lines 206-212). *)
Record t := mk {
  min : Z;
  max : Z;
  _threads : list ref;
  _queue : Queue.t;
  _queue_put_timeout : option Q
}.

Definition with_threads (l : list ref) (p : t) : t :=
  mk (min p) (max p) l (_queue p) (_queue_put_timeout p).

Definition with_queue (q : Queue.t) (p : t) : t :=
  mk (min p) (max p) (_threads p) q (_queue_put_timeout p).

Definition conn_is_None (th : WorkerThread.thread) : bool :=
  match WorkerThread.conn (WorkerThread.self (WorkerThread.st th)) with
  | None => true
  | Some _ => false
  end.

(** [idle] (lines 225-228). *)
Definition idle (sigma : store) (p : t) : nat :=
  length (filter (fun t => conn_is_None (sigma t)) (_threads p)).

(** [qsize] (lines 328-331). *)
Definition qsize (p : t) : nat := Queue.qsize (_queue p).

Inductive outcome (A : Type) :=
| Done (a : A) (waited : Q)
| Raises (e : exn) (waited : Q)
| Blocks.
Arguments Done {A} a waited.
Arguments Raises {A} e waited.
Arguments Blocks {A}.

(** [put] (lines 230-239); the test of line 238 changes nothing. *)
Definition put (p : t) (obj : Queue.item) (slot_after : option Q)
    : outcome t :=
  match Queue.put (_queue p) obj (_queue_put_timeout p) slot_after with
  | Queue.Put_done q' d => Done (with_queue q' p) d
  | Queue.Put_raises e d => Raises e d
  | Queue.Put_blocks => Blocks
  end.

(** *** grow *)

(** [budget] of lines 243-247; [None] is [float('inf')]. *)
Definition budget (p : t) : option Z :=
  if (0 <? max p)%Z
  then Some (Z.max (max p - Z.of_nat (length (_threads p))) 0)
  else None.

(** [n_new = min(amount, budget)] (line 249). *)
Definition n_new (p : t) (amount : Z) : Z :=
  match budget p with
  | Some b => Z.min amount b
  | None => amount
  end.

(** [all(worker.ready for worker in workers)] *)
Definition all_ready (sigma : store) (workers : list ref) : bool :=
  forallb (fun t => WorkerThread.ready
                      (WorkerThread.self (WorkerThread.st (sigma t))))
          workers.

(** The loop of lines 252-253.  [world k] is the store as the [k]-th test
    of the loop condition finds it; the result is the number of sleeps. *)
Fixpoint wait_ready (fuel : nat) (world : nat -> store) (k : nat)
    (workers : list ref) : option nat :=
  if all_ready (world k) workers
  then Some k
  else match fuel with
       | O => None
       | S fuel' => wait_ready fuel' world (S k) workers
       end.

(** [grow] (lines 241-254).  [fresh] is the first identity not yet in use:
    the new thread objects are [fresh], [fresh + 1], ...  The result is the
    pool and the number of sleeps; [None] when [fuel] sleeps were not
    enough. *)
Definition grow (fuel : nat) (world : nat -> store) (fresh : ref) (p : t)
    (amount : Z) : option (t * nat) :=
  let workers := seq fresh (range_len (n_new p amount)) in
  match wait_ready fuel world 0 workers with
  | Some k => Some (with_threads (_threads p ++ workers) p, k)
  | None => None
  end.

(** *** shrink *)

(** The loop of lines 266-269.  A [for] over a list keeps an index [i] into
    the list as it is now, so removing the element under the index moves
    the next one into its place while the index still advances. *)
Fixpoint prune (fuel : nat) (sigma : store) (i : nat) (threads : list ref)
    (amount : Z) : list ref * Z :=
  match fuel with
  | O => (threads, amount)
  | S fuel' =>
      match nth_error threads i with
      | None => (threads, amount)
      | Some t =>
          if WorkerThread.isAlive (sigma t)
          then prune fuel' sigma (S i) threads amount
          else prune fuel' sigma (S i) (list_remove t threads) (amount - 1)
      end
  end.

(** [n] blocking puts of [_SHUTDOWNREQUEST] without a timeout (lines
    280-281 and 291-292).  [slots i] tells when a consumer frees a slot for
    the [i]-th of them.  The result is the queue and the time spent
    waiting; [None] when a put blocks for ever. *)
Fixpoint put_sentinels (slots : nat -> option Q) (i n : nat) (q : Queue.t)
    : option (Queue.t * Q) :=
  match n with
  | O => Some (q, 0)
  | S n' =>
      match Queue.put q None None (slots i) with
      | Queue.Put_done q' d =>
          match put_sentinels slots (S i) n' q' with
          | Some (q'', d') => Some (q'', d + d')
          | None => None
          end
      | _ => None
      end
  end.

(** Lines 266-269 on the pool's list: the list and the amount they leave. *)
Definition pruned (sigma : store) (p : t) (amount : Z) : list ref * Z :=
  prune (length (_threads p)) sigma 0 (_threads p) amount.

(** No put on the queue waits for ever: the queue has no bound, or a
    consumer frees a slot whenever one is awaited. *)
Definition never_stuck (slots : nat -> option Q) (q : Queue.t) : Prop :=
  (Queue.maxsize q <= 0)%Z \/ forall i, slots i <> None.

(** [n_to_remove] of lines 272-275, from the list and amount left by the
    pruning loop. *)
Definition n_to_remove (p : t) (threads : list ref) (amount : Z) : Z :=
  let n_extra := Z.max (Z.of_nat (length threads) - min p) 0 in
  Z.min amount n_extra.

(** [shrink] (lines 262-281): the pool afterwards and the number of
    sentinels it put on the queue; [None] when a put blocks for ever. *)
Definition shrink (sigma : store) (slots : nat -> option Q) (p : t)
    (amount : Z) : option (t * nat) :=
  let '(threads, amount') := pruned sigma p amount in
  let n := range_len (n_to_remove p threads amount') in
  match put_sentinels slots 0 n (_queue p) with
  | Some (q, _) =>
      Some (mk (min p) (max p) threads q (_queue_put_timeout p), n)
  | None => None
  end.

(** A thread that takes [_SHUTDOWNREQUEST] off the queue returns from [run]
    (lines 173-174).  [consumed k sigma sigma']: [k] sentinels were taken,
    each by a worker waiting in [requests.get]; in between the threads may
    do anything that ends none of them. *)
Inductive consumed : nat -> store -> store -> Prop :=
| consumed_none sigma : consumed 0 sigma sigma
| consumed_other k sigma sigma' sigma'' :
    (forall t, WorkerThread.isAlive (sigma' t) = WorkerThread.isAlive (sigma t)) ->
    consumed k sigma' sigma'' ->
    consumed k sigma sigma''
| consumed_one k sigma sigma' t srv env :
    WorkerThread.at_pc (sigma t) = WorkerThread.AtGet ->
    consumed k
      (update sigma t
         (WorkerThread.step srv env (WorkerThread.Item None) (sigma t)))
      sigma' ->
    consumed (S k) sigma sigma'.

(** The number of threads of a list that are alive. *)
Definition live_count (sigma : store) (l : list ref) : nat :=
  length (filter (fun t => WorkerThread.isAlive (sigma t)) l).

(** *** stop *)

(** The calls [stop] makes on the queue, the threads and the sockets. *)
Inductive call :=
| Call_put
| Call_join (t : ref) (timeout : option Q)
| Call_shutdown (s : Conn.Sock) (how : bool).

(** What surrounds a call of [stop]: the calling thread, the connection
    each worker is processing when [stop] reads [worker.conn], how long a
    worker blocked in that connection takes to end once the read half of
    its socket is shut down ([None]: it stays blocked), whether the socket
    accepts [shutdown(SHUT_RD)] (pyOpenSSL sockets raise [TypeError]), and
    the slots of the queue. *)
Record StopEnv := mkStopEnv {
  current : ref;
  conn_of : ref -> option Conn.t;
  reacts_after : ref -> option Q;
  takes_how : Conn.Sock -> bool;
  slot_for : nat -> option Q
}.

(** The clock, the moment each thread ends if left alone ([None]: never),
    and the calls made so far. *)
Record world := mkWorld {
  now : Q;
  ends_at : ref -> option Q;
  calls : list call
}.

Definition alive_in (w : world) (t : ref) : bool :=
  match ends_at w t with
  | Some d => Qlt_bool (now w) d
  | None => true
  end.

(** [worker.join(r)]: returns when the thread has ended or [r] has passed. *)
Definition join_for (t : ref) (r : Q) (w : world) : world :=
  let until :=
    match ends_at w t with
    | Some d => if Qle_bool d (now w) then now w
                else if Qle_bool d (now w + r) then d else now w + r
    | None => now w + r
    end in
  mkWorld until (ends_at w) (calls w ++ [Call_join t (Some r)]).

(** [worker.join()]: returns when the thread has ended; [None] when it
    never does. *)
Definition join (t : ref) (w : world) : option world :=
  match ends_at w t with
  | Some d =>
      Some (mkWorld (if Qle_bool d (now w) then now w else d) (ends_at w)
              (calls w ++ [Call_join t None]))
  | None => None
  end.

(** Lines 311-317. *)
Definition force (env : StopEnv) (t : ref) (w : world) : world :=
  match conn_of env t with
  | Some c =>
      if negb (Conn.rfile_closed c) then
        let s := Conn.socket c in
        let ends :=
          match reacts_after env t with
          | Some delay =>
              let d' := now w + delay in
              match ends_at w t with
              | Some d => Some (if Qle_bool d d' then d else d')
              | None => Some d'
              end
          | None => ends_at w t
          end in
        mkWorld (now w)
          (fun t' => if Nat.eqb t' t then ends else ends_at w t')
          (calls w ++ if takes_how env s
                      then [Call_shutdown s true]
                      else [Call_shutdown s true; Call_shutdown s false])
      else w
  | None => w
  end.

(** The body of the loop of lines 298-326 for one popped [worker];
    [endtime] is [None] when [timeout] is [None] or negative. *)
Definition stop_worker (env : StopEnv) (endtime : option Q) (t : ref)
    (w : world) : option world :=
  if negb (Nat.eqb t (current env)) && alive_in w t then
    match endtime with
    | None => join t w
    | Some e =>
        let remaining_time := e - now w in
        let w1 := if Qlt_bool 0 remaining_time
                  then join_for t remaining_time w else w in
        if alive_in w1 t then join t (force env t w1) else Some w1
    end
  else Some w.

Fixpoint stop_loop (env : StopEnv) (endtime : option Q) (popped : list ref)
    (w : world) : option world :=
  match popped with
  | [] => Some w
  | t :: rest =>
      match stop_worker env endtime t w with
      | Some w' => stop_loop env endtime rest w'
      | None => None
      end
  end.

(** [stop] (lines 283-326).  [self._threads.pop()] takes the workers from
    the end of the list.  [None]: the call never returns. *)
Definition stop (env : StopEnv) (timeout : option Q) (p : t) (w : world)
    : option (t * world) :=
  let n := length (_threads p) in
  match put_sentinels (slot_for env) 0 n (_queue p) with
  | None => None
  | Some (q, d) =>
      let w0 := mkWorld (now w + d) (ends_at w)
                  (calls w ++ repeat Call_put n) in
      let endtime :=
        match timeout with
        | Some tmo => if Qle_bool 0 tmo then Some (now w0 + tmo) else None
        | None => None
        end in
      match stop_loop env endtime (rev (_threads p)) w0 with
      | Some w' => Some (mk (min p) (max p) [] q (_queue_put_timeout p), w')
      | None => None
      end
  end.

End ThreadPool.

(** ** What the specification says, in its own words *)

Module Claimed.
Import ThreadPool.

(** "the smaller of the remaining amount (after dead-worker pruning) and the
    number of live workers above min" *)
Definition shrink_sentinels (sigma : store) (p : t) (threads : list ref)
    (amount : Z) : Z :=
  Z.min amount (Z.max (Z.of_nat (live_count sigma threads) - min p) 0).

(** "the number of live workers that are not currently inside a process()
    call on some connection" *)
Definition idle (sigma : store) (p : t) : nat :=
  length (filter (fun t => WorkerThread.isAlive (sigma t)
                           && negb (WorkerThread.in_process (sigma t)))
                 (_threads p)).

End Claimed.

(** ** Concrete threads and pools *)

Module Sample.
Import WorkerThread.
Local Open Scope nat_scope.

Definition srv : Server := mkServer 10.

(** Nothing is readable, no call raises, every clock reading is [0];
    statistics are enabled. *)
Definition quiet : Env :=
  mkEnv (fun s => Z.of_nat s) (fun _ => false)
        (fun _ => ((0, 0, 0)%Z, None)) (fun _ => None)
        (fun _ => 0%Q) (fun _ => 0%Q) (fun _ => 0%Q) 0 0
        (fun _ => true) (fun _ => true).

(** A worker waiting in [requests.get]. *)
Definition waiting : thread := step srv quiet Empty init.

(** A worker that has taken a sentinel. *)
Definition ended : thread := step srv quiet (Item None) waiting.

(** An unbounded, empty queue and the default put timeout. *)
Definition pool (min max : Z) (threads : list nat) : ThreadPool.t :=
  ThreadPool.mk min max threads (Queue.mk (-1) []) (Some 10%Q).

(** Three workers listed although [max = 1]. *)
Definition crowded : ThreadPool.t := pool 3 1 [0; 1; 2].

(** Worker [0] has ended, all others wait. *)
Definition first_ended : ThreadPool.store :=
  fun t => if Nat.eqb t 0 then ended else waiting.

(** Workers [0] and [1] have ended, all others wait. *)
Definition two_ended : ThreadPool.store :=
  fun t => if Nat.leb t 1 then ended else waiting.

End Sample.

(** ** Throughput, in the specification's words *)

Module ClaimedStats.

(** "the corresponding byte counter divided by max(work time, epsilon)" *)
Definition throughput (bytes : Z) (work_time : Q) : Q :=
  inject_Z bytes / Qmax work_time WorkerThread.eps.

End ClaimedStats.

Module SampleStats.
Import WorkerThread.

(** A worker outside [communicate()] that has banked one byte read in half
    a microsecond of work. *)
Definition brief : attrs := mkAttrs true None 1 1 0 None (1 # 2000000).

(** A connection that has read 7 bytes and written 9 in 2 requests. *)
Definition busy_conn : Conn.t := Conn.mk 0 0 2 7 9 false.

(** A worker inside [communicate()] on [busy_conn] since time [3], with
    banked totals of 1 request, 10 bytes read, 20 written, 4 of work. *)
Definition busy : attrs := mkAttrs true (Some busy_conn) 1 10 20 (Some 3) 4.

End SampleStats.

(** ** The invariant of the owned-set *)

Module Owned.
Import Py.

(** Every entry of [conn_socks] is stored under the socket of its
    connection (lines 154 and 175 are the only stores), and no key occurs
    twice. *)
Definition ok (d : Dict.t (Conn.t * Q)) : Prop :=
  NoDup (Dict.keys d) /\
  forall k c t, In (k, (c, t)) d -> Conn.socket c = k.

(** The three calls that retire a connection, in the order claimed. *)
Definition retired (c : Conn.t) : list WorkerThread.event :=
  [WorkerThread.Ev_communicate (Conn.ident c);
   WorkerThread.Ev_close (Conn.ident c);
   WorkerThread.Ev_pop (Conn.socket c)].

(** What holds of a thread at every cut of [run]: the owned-set is well
    formed, and [self.conn] is set exactly while the thread is inside the
    call of [communicate()] on that connection. *)
Definition inv (th : WorkerThread.thread) : Prop :=
  ok (WorkerThread.conn_socks (WorkerThread.st th)) /\
  match WorkerThread.at_pc th with
  | WorkerThread.InCommunicate c _ =>
      WorkerThread.conn (WorkerThread.self (WorkerThread.st th)) = Some c
  | WorkerThread.Interrupted | WorkerThread.Crashed _ => True
  | _ => WorkerThread.conn (WorkerThread.self (WorkerThread.st th)) = None
  end.

End Owned.

Module SampleWorker.
Import Py WorkerThread.
Local Open Scope nat_scope.

(** Two connections, on sockets [11] and [12]. *)
Definition c1 : Conn.t := Conn.mk 1 11 0 0 0 false.
Definition c2 : Conn.t := Conn.mk 2 12 0 0 0 false.

(** A worker that owns both, each last active at time [0]. *)
Definition owning : state :=
  mkState (mkAttrs true None 0 0 0 None 0)
          [(11, (c1, 0%Q)); (12, (c2, 0%Q))] None [].

(** Both sockets are readable; [communicate()] raises on [c1], wherever it
    is called, and returns on [c2] after one request of 5 bytes; the clock
    reads [20] and later. *)
Definition failing : Env :=
  mkEnv (fun s => Z.of_nat s) (fun _ => true)
        (fun c => if Nat.eqb (Conn.ident c) 1
                  then ((0, 0, 0)%Z, Some Error)
                  else ((1, 5, 0)%Z, None))
        (fun c => if Nat.eqb (Conn.ident c) 1 then Some Error else None)
        (fun _ => 20%Q) (fun _ => 21%Q) (fun _ => 22%Q) 20 20
        (fun _ => true) (fun _ => true).

(** A worker that took [c1] off the queue and is inside
    [c1.communicate()]. *)
Definition processing : thread :=
  step Sample.srv failing Empty
    (step Sample.srv failing (Item (Some c1)) Sample.waiting).

(** Worker [0] is processing, all others wait. *)
Definition one_busy : ThreadPool.store :=
  fun t => if Nat.eqb t 0 then processing else Sample.waiting.

End SampleWorker.

(** ** Conditions on the surroundings of [stop] *)

Module Stopping.
Import ThreadPool.







End Stopping.

Module SampleStop.
Import ThreadPool.
Local Open Scope nat_scope.


(** Every worker is blocked in [communicate()] on [c1] and ends half a
    second after the read half of the socket is shut down. *)
Definition all_blocked : StopEnv :=
  mkStopEnv 99 (fun _ => Some SampleWorker.c1) (fun _ => Some (1 # 2)%Q)
            (fun _ => true) (fun _ => None).

(** Time [0]; no worker ends if left alone. *)
Definition stuck : world := mkWorld 0 (fun _ => None) [].

(** Time [0]; every worker ends by itself a tenth of a second later. *)
Definition ending : world := mkWorld 0 (fun _ => Some (1 # 10)%Q) [].

End SampleStop.

Module SamplePut.
Local Open Scope nat_scope.

(** A queue of capacity one that holds a connection. *)
Definition full_pool : ThreadPool.t :=
  ThreadPool.mk 1 (-1) [0] (Queue.mk 1 [Some SampleWorker.c1]) (Some 10%Q).

End SamplePut.

(** ** The code beside the claims: closed forms and further operations *)

Module Pruning.
Import ThreadPool.

(** What the loop of lines 266-269 leaves of a list: a worker that is not
    alive is dropped, and the worker after it is kept without being
    tested. *)
Fixpoint skip (sigma : store) (l : list ref) : list ref :=
  match l with
  | [] => []
  | t :: r =>
      if WorkerThread.isAlive (sigma t) then t :: skip sigma r
      else match r with
           | [] => []
           | u :: r' => u :: skip sigma r'
           end
  end.

(** No worker that is not alive directly follows another one. *)
Fixpoint no_adjacent_dead (sigma : store) (l : list ref) : Prop :=
  match l with
  | [] => True
  | t :: r =>
      (WorkerThread.isAlive (sigma t) = false ->
       match r with
       | [] => True
       | u :: _ => WorkerThread.isAlive (sigma u) = true
       end) /\
      no_adjacent_dead sigma r
  end.

End Pruning.

Module Starting.
Import ThreadPool.

(** The loop of lines 221-223: each listed worker in turn is tested until
    it reports ready, with a sleep after each failed test.  [world k] is
    the store after [k] sleeps, [fuel] the number of tests allowed; the
    result is the number of sleeps. *)
Fixpoint wait_each (fuel : nat) (world : nat -> store) (k : nat)
    (workers : list ref) : option nat :=
  match workers with
  | [] => Some k
  | t :: rest =>
      match fuel with
      | O => None
      | S fuel' =>
          if WorkerThread.ready
               (WorkerThread.self (WorkerThread.st (world k t)))
          then wait_each fuel' world k rest
          else wait_each fuel' world (S k) workers
      end
  end.

Inductive outcome :=
| Started (p : t) (sleeps : nat)
| RuntimeError (p : t)
| Waiting.

(** [start] (lines 214-223).  [fresh] is the first identity not yet in
    use.  [started t] tells whether [t.start()] has been called before: a
    second call on the same thread raises [RuntimeError], which leaves
    [start] after the new workers were appended. *)
Definition start (fuel : nat) (world : nat -> store) (started : ref -> bool)
    (fresh : ref) (p : t) : outcome :=
  let threads := _threads p ++ seq fresh (Py.range_len (min p)) in
  let p' := with_threads threads p in
  if existsb started (_threads p) then RuntimeError p'
  else match wait_each fuel world 0 threads with
       | Some k => Started p' k
       | None => Waiting
       end.

(** [worker.ready] as the test after [k] sleeps finds it. *)
Definition ready_at (world : nat -> store) (k : nat) (t : ref) : bool :=
  WorkerThread.ready (WorkerThread.self (WorkerThread.st (world k t))).

(** [ready] is only ever set to [True] (line 165): a worker seen ready
    stays ready. *)
Definition stays_ready (world : nat -> store) : Prop :=
  forall t k, ready_at world k t = true -> ready_at world (S k) t = true.

End Starting.

Module Turn.
Import WorkerThread.

(** [n] moves of a thread against the same surroundings. *)
Fixpoint steps (n : nat) (srv : Server) (env : Env) (g : got) (th : thread)
    : thread :=
  match n with
  | O => th
  | S n' => steps n' srv env g (step srv env g th)
  end.

(** The calls the loop of [process_conns] makes for one ready connection,
    by the outcome of its [communicate()]. *)
Definition served (env : Env) (c : Conn.t) : list event :=
  match snd (communicate env c) with
  | Some _ => Owned.retired c
  | None => [Ev_communicate (Conn.ident c)]
  end.

(** The connections [process_conns] serves: those stored under the
    sockets that [select] reports, in that order. *)
Definition ready_conns (env : Env) (d : Py.Dict.t (Conn.t * Q)) : list Conn.t :=
  flat_map (fun k => match Py.Dict.get d k with
                     | Some (c, _) => [c]
                     | None => []
                     end)
           (rlist env d).

(** The expiry sweep of lines 177-178. *)
Definition sweep (srv : Server) (env : Env) : M unit :=
  fun s => close_conns env (get_expired_conns srv (conn_socks s) (t_sweep env)) s.

(** One move, as [run] folds it. *)
Definition move (th : thread) (m : Server * Env * got) : thread :=
  step (fst (fst m)) (snd (fst m)) (snd m) th.

(** Lines 169-175 for an item that is not the sentinel: a connection
    taken off the queue is stored under its socket with the clock
    reading. *)
Definition take (env : Env) (g : got) (s : state) : state :=
  match g with
  | Item (Some c) =>
      set_conn_socks
        (Py.Dict.set (conn_socks s) (Conn.socket c) (c, t_get env)) s
  | _ => s
  end.

(** The body of the loop of [run] after the queue was read: lines
    176-178. *)
Definition serve_and_sweep (srv : Server) (env : Env) : M unit :=
  bind (process_conns env) (fun _ => sweep srv env).

End Turn.

Module SampleMore.
Import Py WorkerThread.
Local Open Scope nat_scope.

(** As [SampleWorker.failing], but [communicate()] leaves [c1] by
    [SystemExit]. *)
Definition exiting : Env :=
  mkEnv (fun s => Z.of_nat s) (fun _ => true)
        (fun c => if Nat.eqb (Conn.ident c) 1
                  then ((0, 0, 0)%Z, Some SystemExit)
                  else ((1, 5, 0)%Z, None))
        (fun _ => None)
        (fun _ => 20%Q) (fun _ => 21%Q) (fun _ => 22%Q) 20 20
        (fun _ => true) (fun _ => true).

(** The moves that bring a fresh worker inside [c1.communicate()]. *)
Definition into_c1 : list (Server * Env * got) :=
  [(Sample.srv, exiting, Empty);
   (Sample.srv, exiting, Item (Some SampleWorker.c1));
   (Sample.srv, exiting, Empty)].

(** Socket [11] is closed (descriptor [-1]), socket [12] is readable;
    [communicate()] returns after one request of 5 bytes; the sweep is at
    time [5]. *)
Definition one_closed : Env :=
  mkEnv (fun s => if Nat.eqb s 11 then (-1)%Z else Z.of_nat s)
        (fun _ => true)
        (fun _ => ((1, 5, 0)%Z, None)) (fun _ => None)
        (fun _ => 1%Q) (fun _ => 2%Q) (fun _ => 3%Q) 0 5
        (fun _ => true) (fun _ => true).

(** As [SampleWorker.failing], but the application enables statistics
    while a connection is served: line 147 finds them off, line 155 on. *)
Definition switched_on : Env :=
  mkEnv (fun s => Z.of_nat s) (fun _ => true)
        (fun c => if Nat.eqb (Conn.ident c) 1
                  then ((0, 0, 0)%Z, Some Error)
                  else ((1, 5, 0)%Z, None))
        (fun c => if Nat.eqb (Conn.ident c) 1 then Some Error else None)
        (fun _ => 20%Q) (fun _ => 21%Q) (fun _ => 22%Q) 20 20
        (fun _ => false) (fun _ => true).

(** As [one_closed], but the application disables statistics while a
    connection is served: line 147 finds them on, line 155 off. *)
Definition switched_off : Env :=
  mkEnv (fun s => if Nat.eqb s 11 then (-1)%Z else Z.of_nat s)
        (fun _ => true)
        (fun _ => ((1, 5, 0)%Z, None)) (fun _ => None)
        (fun _ => 1%Q) (fun _ => 2%Q) (fun _ => 3%Q) 0 5
        (fun _ => true) (fun _ => false).

(** The moves by which a fresh worker takes [c1], then [c2], off the queue
    at time [0] while neither socket is readable: it ends waiting in
    [requests.get] with the state [SampleWorker.owning]. *)
Definition taking_both : list (Server * Env * got) :=
  [(Sample.srv, Sample.quiet, Empty);
   (Sample.srv, Sample.quiet, Item (Some SampleWorker.c1));
   (Sample.srv, Sample.quiet, Empty);
   (Sample.srv, Sample.quiet, Empty);
   (Sample.srv, Sample.quiet, Item (Some SampleWorker.c2));
   (Sample.srv, Sample.quiet, Empty);
   (Sample.srv, Sample.quiet, Empty)].

(** One more turn of the loop in which both sockets are readable and
    statistics are switched on during the service of [c1]. *)
Definition served_while_switched_on : list (Server * Env * got) :=
  taking_both ++
  [(Sample.srv, switched_on, Empty);
   (Sample.srv, switched_on, Empty);
   (Sample.srv, switched_on, Empty)].

End SampleMore.

Module StopCalls.
Import ThreadPool.


End StopCalls.

Module SampleSweep.
Import WorkerThread.
Local Open Scope nat_scope.

(** [c1] was last active at time [0], [c2] at time [15]. *)
Definition mixed : state :=
  mkState (mkAttrs true None 0 0 0 None 0)
          [(11, (SampleWorker.c1, 0%Q)); (12, (SampleWorker.c2, 15%Q))]
          None [].

End SampleSweep.

Module SampleShrink.
Local Open Scope nat_scope.

(** Every worker waits in [requests.get]. *)
Definition all_waiting : ThreadPool.store := fun _ => Sample.waiting.

(** Five listed workers, [min = 3]. *)
Definition five : ThreadPool.t := Sample.pool 3 (-1) [0; 1; 2; 3; 4].

End SampleShrink.

(** * Properties *)

Local Open Scope nat_scope.

(** ** shrink: the pruning loop *)

Section Pruning.
Import Py ThreadPool.

Lemma list_remove_length x l :
  In x l -> S (length (list_remove x l)) = length l.
Proof.
  induction l as [|y l IH]; simpl; [tauto|].
  intros [->|Hin].
  - now rewrite Nat.eqb_refl.
  - destruct (Nat.eqb x y); [reflexivity|].
    simpl. now rewrite IH.
Qed.

Lemma list_remove_incl x l : incl (list_remove x l) l.
Proof.
  induction l as [|y l IH]; simpl; intros z Hz; [exact Hz|].
  destruct (Nat.eqb x y).
  - now right.
  - destruct Hz as [->|Hz]; [now left|right; now apply IH].
Qed.

Lemma list_remove_keeps x y l : y <> x -> In y l -> In y (list_remove x l).
Proof.
  intros Hne. induction l as [|z l IH]; simpl; [tauto|].
  intros [->|Hin].
  - destruct (Nat.eqb_spec x y); [congruence|now left].
  - destruct (Nat.eqb x z); [exact Hin|right; now apply IH].
Qed.

(** The loop stops by itself: fuel beyond the length of the list is never
    used. *)
Lemma prune_fuel sigma fuel : forall i l a,
  length l <= i + fuel ->
  prune (S fuel) sigma i l a = prune fuel sigma i l a.
Proof.
  induction fuel as [|fuel IH]; intros i l a Hlen.
  - simpl. destruct (nth_error l i) eqn:E; [|reflexivity].
    assert (i < length l) by (apply nth_error_Some; congruence). lia.
  - change (prune (S (S fuel)) sigma i l a)
      with (match nth_error l i with
            | None => (l, a)
            | Some t =>
                if WorkerThread.isAlive (sigma t)
                then prune (S fuel) sigma (S i) l a
                else prune (S fuel) sigma (S i) (list_remove t l) (a - 1)%Z
            end).
    change (prune (S fuel) sigma i l a)
      with (match nth_error l i with
            | None => (l, a)
            | Some t =>
                if WorkerThread.isAlive (sigma t)
                then prune fuel sigma (S i) l a
                else prune fuel sigma (S i) (list_remove t l) (a - 1)%Z
            end).
    destruct (nth_error l i) as [t|] eqn:E; [|reflexivity].
    destruct (WorkerThread.isAlive (sigma t)).
    + apply IH. lia.
    + apply IH.
      pose proof (list_remove_length t l (nth_error_In _ _ E)). lia.
Qed.

Lemma prune_more_fuel sigma l a fuel :
  length l <= fuel ->
  prune fuel sigma 0 l a = prune (length l) sigma 0 l a.
Proof.
  induction fuel as [|fuel IH]; intros Hlen.
  - assert (length l = 0) as -> by lia. reflexivity.
  - destruct (Nat.eq_dec (length l) (S fuel)) as [->|Hne]; [reflexivity|].
    rewrite prune_fuel by lia. apply IH. lia.
Qed.

(** Each removal takes one worker off the list and one off [amount]; only
    workers that are not alive are removed. *)
Lemma prune_spec sigma fuel : forall i l a l' a',
  prune fuel sigma i l a = (l', a') ->
  length l' <= length l /\
  a' = (a - Z.of_nat (length l - length l'))%Z /\
  incl l' l /\
  (forall t, In t l -> WorkerThread.isAlive (sigma t) = true -> In t l').
Proof.
  induction fuel as [|fuel IH]; intros i l a l' a' H; simpl in H.
  - injection H as <- <-. rewrite Nat.sub_diag.
    repeat split; auto with arith; [lia|apply incl_refl].
  - destruct (nth_error l i) as [t|] eqn:E.
    + destruct (WorkerThread.isAlive (sigma t)) eqn:Ht.
      * now apply IH in H.
      * apply IH in H. destruct H as (H1 & H2 & H3 & H4).
        pose proof (list_remove_length t l (nth_error_In _ _ E)) as Hl.
        repeat split.
        -- lia.
        -- subst a'. lia.
        -- intros z Hz. apply (list_remove_incl t). now apply H3.
        -- intros u Hu Halive. apply H4; [|exact Halive].
           apply list_remove_keeps; [congruence|exact Hu].
    + injection H as <- <-. rewrite Nat.sub_diag.
      repeat split; auto with arith; [lia|apply incl_refl].
Qed.

(** A list without dead workers is left as it is. *)
Lemma prune_all_alive sigma fuel : forall i l a,
  (forall t, In t l -> WorkerThread.isAlive (sigma t) = true) ->
  prune fuel sigma i l a = (l, a).
Proof.
  induction fuel as [|fuel IH]; intros i l a Hall; simpl; [reflexivity|].
  destruct (nth_error l i) as [t|] eqn:E; [|reflexivity].
  rewrite (Hall t (nth_error_In _ _ E)). now apply IH.
Qed.

End Pruning.

(** ** shrink: sentinels and the minimum *)

Section Shrinking.
Import Py ThreadPool.

Lemma put_sentinels_zero slots i q : put_sentinels slots i 0 q = Some (q, 0%Q).
Proof. reflexivity. Qed.

(** Without a bound the queue takes every sentinel at once. *)
Lemma put_sentinels_unbounded slots n : forall i q,
  (Queue.maxsize q <= 0)%Z ->
  exists d,
    put_sentinels slots i n q =
      Some (Queue.mk (Queue.maxsize q) (Queue.items q ++ repeat None n), d) /\
    (d == 0)%Q.
Proof.
  induction n as [|n IH]; intros i q Hq; simpl.
  - exists 0%Q. rewrite app_nil_r. split; [now destruct q|reflexivity].
  - unfold Queue.put.
    destruct (Z.ltb_spec 0 (Queue.maxsize q)) as [Hlt|_]; [lia|].
    cbn iota.
    match goal with
    | |- context [put_sentinels _ _ _ ?q'] =>
        destruct (IH (S i) q' Hq) as [d [Hd Hd0]]
    end.
    rewrite Hd. cbn [Queue.maxsize Queue.items].
    exists (0 + d)%Q. rewrite <- app_assoc. split; [reflexivity|].
    rewrite Hd0. reflexivity.
Qed.

Lemma live_count_ext sigma sigma' l :
  (forall t, WorkerThread.isAlive (sigma' t) = WorkerThread.isAlive (sigma t)) ->
  live_count sigma' l = live_count sigma l.
Proof.
  intros H. unfold live_count. f_equal.
  apply filter_ext. intros t. apply H.
Qed.

Lemma live_count_update sigma t th l :
  NoDup l -> live_count sigma l <= S (live_count (update sigma t th) l).
Proof.
  unfold live_count.
  induction l as [|x l IH]; intros Hnd; simpl; [lia|].
  inversion Hnd as [|? ? Hx Hl]; subst.
  destruct (Nat.eq_dec x t) as [->|Hne].
  - assert (Hsame : filter (fun t0 => WorkerThread.isAlive (update sigma t th t0)) l
                    = filter (fun t0 => WorkerThread.isAlive (sigma t0)) l).
    { apply filter_ext_in. intros y Hy. unfold update.
      destruct (Nat.eqb_spec y t); [subst; contradiction|reflexivity]. }
    rewrite Hsame.
    destruct (WorkerThread.isAlive (sigma t)),
             (WorkerThread.isAlive (update sigma t th t)); simpl; lia.
  - specialize (IH Hl).
    assert (Hx' : update sigma t th x = sigma x).
    { unfold update. destruct (Nat.eqb_spec x t); [contradiction|reflexivity]. }
    rewrite Hx'.
    destruct (WorkerThread.isAlive (sigma x)); simpl; lia.
Qed.

(** [k] consumed sentinels end at most [k] workers of a list. *)
Lemma consumed_live_count k sigma sigma' l :
  consumed k sigma sigma' -> NoDup l ->
  live_count sigma l <= live_count sigma' l + k.
Proof.
  intros H Hnd. induction H as [sigma|k sigma sigma' sigma'' Hsame _ IH
                                |k sigma sigma' t srv env Hpc _ IH].
  - lia.
  - rewrite <- (live_count_ext sigma sigma' l Hsame). exact IH.
  - pose proof (live_count_update sigma t
        (WorkerThread.step srv env (WorkerThread.Item None) (sigma t)) l Hnd).
    lia.
Qed.

Lemma live_count_all sigma l :
  (forall t, In t l -> WorkerThread.isAlive (sigma t) = true) ->
  live_count sigma l = length l.
Proof.
  unfold live_count. induction l as [|x l IH]; intros H; simpl; [reflexivity|].
  rewrite (H x (or_introl eq_refl)). simpl. f_equal.
  apply IH. intros t Ht. apply H. now right.
Qed.

End Shrinking.

Section ShrinkClaims.
Import Py ThreadPool.

Lemma put_sentinels_total slots n : forall i q,
  never_stuck slots q ->
  exists q' d, put_sentinels slots i n q = Some (q', d) /\
               Queue.maxsize q' = Queue.maxsize q.
Proof.
  induction n as [|n IH]; intros i q Hq; simpl.
  - now exists q, 0%Q.
  - assert (Hput : exists q1 d1,
               Queue.put q None None (slots i) = Queue.Put_done q1 d1 /\
               Queue.maxsize q1 = Queue.maxsize q).
    { unfold Queue.put.
      destruct (0 <? Queue.maxsize q)%Z eqn:Hb; [|eauto].
      destruct (Queue.full q); [|eauto].
      destruct Hq as [Hq|Hq]; [apply Z.ltb_lt in Hb; lia|].
      specialize (Hq i). destruct (slots i); [eauto|congruence]. }
    destruct Hput as (q1 & d1 & -> & Hm).
    destruct (IH (S i) q1) as (q' & d & -> & Hm').
    { unfold never_stuck in *. now rewrite Hm. }
    exists q', (d1 + d)%Q. split; [reflexivity|congruence].
Qed.

(** C2, at [shrink(2)] on a list of two workers that have both ended: the
    loop removes the first, steps over the second, and leaves it in the
    list. *)
Lemma shrink_leaves_dead_worker :
  exists p' k,
    shrink Sample.two_ended (fun _ => None) (Sample.pool 0 (-1) [0; 1]) 2
      = Some (p', k) /\
    _threads p' = [1] /\
    WorkerThread.isAlive (Sample.two_ended 1) = false.
Proof. eexists _, _. repeat split. Qed.

(** C10: when the pruning loop removed at least [amount] workers, [shrink]
    returns without putting any sentinel on the queue, whatever the queue
    and its consumers do. *)
Theorem shrink_no_sentinel_after_pruning sigma slots p amount :
  (amount <= Z.of_nat (length (_threads p)
                       - length (fst (pruned sigma p amount))))%Z ->
  exists p',
    shrink sigma slots p amount = Some (p', 0) /\
    _queue p' = _queue p /\
    _threads p' = fst (pruned sigma p amount).
Proof.
  intros Hle. unfold shrink.
  destruct (pruned sigma p amount) as [threads amount'] eqn:E.
  unfold pruned in E. apply prune_spec in E.
  destruct E as (_ & Ha & _). simpl in Hle.
  assert (Hn : range_len (n_to_remove p threads amount') = 0).
  { unfold range_len, n_to_remove. lia. }
  rewrite Hn. simpl. eexists. repeat split.
Qed.

Lemma shrink_no_sentinel_after_pruning_witness :
  exists p',
    shrink Sample.first_ended (fun _ => None) (Sample.pool 0 (-1) [0; 1]) 1
      = Some (p', 0) /\
    _queue p' = _queue (Sample.pool 0 (-1) [0; 1]) /\
    _threads p' = [1].
Proof.
  apply (shrink_no_sentinel_after_pruning
           Sample.first_ended (fun _ => None) (Sample.pool 0 (-1) [0; 1]) 1).
  vm_compute. discriminate.
Defined.

End ShrinkClaims.

Section ShrinkMinimum.
Import Py ThreadPool.

(** At [shrink(0)] on a list whose first worker has ended, pruning leaves
    the amount [-1], one live worker stands above [min = 0], the smaller
    of the two is [-1], and no sentinel is put: [range] of a negative
    number is empty. *)
Lemma shrink_sentinels_not_the_smaller :
  exists p' k,
    shrink Sample.first_ended (fun _ => None) (Sample.pool 0 (-1) [0; 1]) 0
      = Some (p', k) /\
    Z.of_nat k <>
      Claimed.shrink_sentinels Sample.first_ended (Sample.pool 0 (-1) [0; 1])
        (fst (pruned Sample.first_ended (Sample.pool 0 (-1) [0; 1]) 0))
        (snd (pruned Sample.first_ended (Sample.pool 0 (-1) [0; 1]) 0)).
Proof. eexists _, _. split; [reflexivity|]. vm_compute. discriminate. Qed.

(** What lines 271-281 compute.  When no put can wait for ever, [shrink]
    returns; the number of sentinels it put is the smaller of the amount
    left by the pruning and the number of listed workers above [min], or
    none when that is negative; on an unbounded queue they are appended to
    it.  When every worker left in the list is alive and just these
    sentinels are taken (the queue held none before), the list still
    counts at least [min] live workers, or all it had, if fewer. *)
Lemma shrink_sentinels_above_min sigma slots p amount :
  never_stuck slots (_queue p) ->
  exists p' k,
    shrink sigma slots p amount = Some (p', k) /\
    _threads p' = fst (pruned sigma p amount) /\
    Z.of_nat k =
      Z.max 0 (Z.min (snd (pruned sigma p amount))
                 (Z.max (Z.of_nat (length (_threads p')) - min p) 0)) /\
    ((Queue.maxsize (_queue p) <= 0)%Z ->
     Queue.items (_queue p') = Queue.items (_queue p) ++ repeat None k) /\
    (forall sigma',
       (forall t, In t (_threads p') -> WorkerThread.isAlive (sigma t) = true) ->
       NoDup (_threads p') ->
       consumed k sigma sigma' ->
       (Z.min (min p) (Z.of_nat (length (_threads p')))
        <= Z.of_nat (live_count sigma' (_threads p')))%Z).
Proof.
  intros Hq. unfold shrink.
  destruct (pruned sigma p amount) as [threads amount'] eqn:E.
  set (k := range_len (n_to_remove p threads amount')).
  destruct (put_sentinels_total slots k 0 (_queue p) Hq) as (q' & d & Hput & Hm).
  rewrite Hput. eexists _, k. split; [reflexivity|].
  cbn [_threads _queue fst snd min].
  assert (Hk : Z.of_nat k =
               Z.max 0 (Z.min amount' (Z.max (Z.of_nat (length threads) - min p) 0))).
  { unfold k, range_len, n_to_remove. lia. }
  repeat split.
  - exact Hk.
  - intros Hunb.
    destruct (put_sentinels_unbounded slots k 0 (_queue p) Hunb) as [d' [Hd' _]].
    rewrite Hput in Hd'. now injection Hd' as -> _.
  - intros sigma' Halive Hnd Hcons.
    pose proof (consumed_live_count k sigma sigma' threads Hcons Hnd) as Hc.
    rewrite (live_count_all sigma threads Halive) in Hc. lia.
Qed.

Lemma shrink_sentinels_above_min_witness :
  exists p' k,
    shrink Sample.first_ended (fun _ => None) (Sample.pool 1 (-1) [0; 1; 2]) 2
      = Some (p', k) /\
    _threads p' = [1; 2] /\
    Z.of_nat k = 1%Z.
Proof.
  destruct (shrink_sentinels_above_min Sample.first_ended (fun _ => None)
              (Sample.pool 1 (-1) [0; 1; 2]) 2) as (p' & k & H1 & H2 & H3 & _).
  - left. vm_compute. discriminate.
  - exists p', k. split; [exact H1|]. split; [exact H2|].
    rewrite H3, H2. reflexivity.
Defined.

(** C3: [shrink] can take the pool below [min].  Of three listed workers
    the first two have ended, the third waits in [requests.get]; [min] is
    [1] and the queue is empty.  [shrink(2)] removes the first worker,
    steps over the second, counts it as a worker above the minimum
    ([n_extra = 1]) and puts one sentinel, where the smaller of the amount
    left and the number of live workers above [min] is [0].  The sentinel
    is the only item of the queue; the one live worker takes it, and no
    listed worker is alive any more. *)
Theorem shrink_below_min_after_skipped_worker :
  exists p' sigma',
    map (fun t => WorkerThread.isAlive (Sample.two_ended t)) [0; 1; 2]
      = [false; false; true] /\
    shrink Sample.two_ended (fun _ => None) (Sample.pool 1 (-1) [0; 1; 2]) 2
      = Some (p', 1) /\
    pruned Sample.two_ended (Sample.pool 1 (-1) [0; 1; 2]) 2 = ([1; 2], 1%Z) /\
    _threads p' = [1; 2] /\
    Queue.items (_queue (Sample.pool 1 (-1) [0; 1; 2])) = [] /\
    Queue.items (_queue p') = [None] /\
    Claimed.shrink_sentinels Sample.two_ended (Sample.pool 1 (-1) [0; 1; 2])
      [1; 2] 1 = 0%Z /\
    consumed 1 Sample.two_ended sigma' /\
    live_count Sample.two_ended (_threads p') = 1 /\
    live_count sigma' (_threads p') = 0 /\
    (Z.of_nat (live_count sigma' (_threads p')) < min p')%Z.
Proof.
  eexists _, (update Sample.two_ended 2
                (WorkerThread.step Sample.srv Sample.quiet
                   (WorkerThread.Item None) (Sample.two_ended 2))).
  split; [reflexivity|]. split; [reflexivity|]. split; [reflexivity|].
  split; [reflexivity|]. split; [reflexivity|]. split; [reflexivity|].
  split; [reflexivity|].
  split; [|split; [reflexivity|split; reflexivity]].
  apply (consumed_one 0 Sample.two_ended _ 2 Sample.srv Sample.quiet);
    [reflexivity|apply consumed_none].
Qed.

End ShrinkMinimum.

Section ShrinkTwice.
Import Py ThreadPool.

(** Sentinels that no worker has taken yet are not counted either.  Five
    listed workers wait in [requests.get], [min] is [3]: two calls of
    [shrink(2)] in a row each find five workers listed and put two
    sentinels; once the four sentinels are consumed one worker is left. *)
Lemma shrink_twice_below_min :
  exists p1 p2 sigma',
    shrink SampleShrink.all_waiting (fun _ => None) SampleShrink.five 2
      = Some (p1, 2) /\
    shrink SampleShrink.all_waiting (fun _ => None) p1 2 = Some (p2, 2) /\
    _threads p2 = [0; 1; 2; 3; 4] /\
    Queue.items (_queue p2) = [None; None; None; None] /\
    consumed 4 SampleShrink.all_waiting sigma' /\
    live_count SampleShrink.all_waiting (_threads p2) = 5 /\
    live_count sigma' (_threads p2) = 1 /\
    (Z.of_nat (live_count sigma' (_threads p2)) < min p2)%Z.
Proof.
  pose (e := fun sigma t =>
          update sigma t
            (WorkerThread.step Sample.srv Sample.quiet
               (WorkerThread.Item None) (sigma t))).
  eexists _, _, (e (e (e (e SampleShrink.all_waiting 0) 1) 2) 3).
  split; [reflexivity|]. split; [reflexivity|]. split; [reflexivity|].
  split; [reflexivity|].
  split; [|split; [reflexivity|split; reflexivity]].
  apply (consumed_one 3 _ _ 0 Sample.srv Sample.quiet); [reflexivity|].
  apply (consumed_one 2 _ _ 1 Sample.srv Sample.quiet); [reflexivity|].
  apply (consumed_one 1 _ _ 2 Sample.srv Sample.quiet); [reflexivity|].
  apply (consumed_one 0 _ _ 3 Sample.srv Sample.quiet); [reflexivity|].
  apply consumed_none.
Qed.

End ShrinkTwice.

(** ** grow *)

Section Growing.
Import Py ThreadPool.

Lemma wait_ready_sound world ws fuel : forall k k',
  wait_ready fuel world k ws = Some k' ->
  k <= k' <= k + fuel /\
  all_ready (world k') ws = true /\
  (forall j, k <= j < k' -> all_ready (world j) ws = false).
Proof.
  induction fuel as [|fuel IH]; intros k k' H; simpl in H.
  - destruct (all_ready (world k) ws) eqn:E; [|discriminate].
    injection H as <-. repeat split; try lia. exact E.
  - destruct (all_ready (world k) ws) eqn:E.
    + injection H as <-. repeat split; try lia. exact E.
    + apply IH in H. destruct H as (Hk & Hr & Hbefore).
      repeat split; try lia; [exact Hr|].
      intros j Hj. destruct (Nat.eq_dec j k) as [->|Hne]; [exact E|].
      apply Hbefore. lia.
Qed.

Lemma wait_ready_complete world ws fuel : forall k d,
  d <= fuel ->
  all_ready (world (k + d)) ws = true ->
  exists k', wait_ready fuel world k ws = Some k' /\ k' <= k + d.
Proof.
  induction fuel as [|fuel IH]; intros k d Hd Hr; simpl.
  - assert (d = 0) as -> by lia. rewrite Nat.add_0_r in Hr.
    rewrite Hr. exists k. split; [reflexivity|lia].
  - destruct (all_ready (world k) ws) eqn:E.
    + exists k. split; [reflexivity|lia].
    + destruct d as [|d]; [rewrite Nat.add_0_r in Hr; congruence|].
      destruct (IH (S k) d) as (k' & Hk' & Hle); [lia| |].
      * now rewrite Nat.add_succ_comm.
      * exists k'. split; [exact Hk'|lia].
Qed.

(** A worker that never reports ready keeps [grow] in its loop. *)
Lemma wait_ready_never world ws fuel : forall k,
  (forall j, all_ready (world j) ws = false) ->
  wait_ready fuel world k ws = None.
Proof.
  induction fuel as [|fuel IH]; intros k H; simpl; rewrite H; auto.
Qed.

(** C4 as stated fails on a pool that already lists three workers with
    [max = 1] (as after [start()] with [min = 3]): [grow(1)] spawns nothing
    and the count stays at three, above [max]. *)
Lemma grow_count_above_max :
  exists p' k,
    grow 0 (fun _ _ => Sample.waiting) 3 Sample.crowded 1 = Some (p', k) /\
    (0 < max Sample.crowded)%Z /\
    ~ (Z.of_nat (length (_threads p')) <= max Sample.crowded)%Z.
Proof.
  eexists _, _. split; [reflexivity|]. split; [reflexivity|].
  vm_compute. intros H. now apply H.
Qed.

(** C4, amended: if the spawned workers all report ready at the [k]-th
    test of the loop, [grow] returns after at most [k] sleeps, at the first
    test that finds them all ready, and only then appends them to the
    list.  With [max > 0] it spawns at most [max - len] workers (none when
    the list already holds [max] or more), so the count does not pass the
    larger of [max] and the old count; with [max <= 0] it spawns [amount]
    workers (none for a negative [amount]). *)
Theorem grow_within_max world fresh p amount k :
  all_ready (world k) (seq fresh (range_len (n_new p amount))) = true ->
  exists p' k',
    grow k world fresh p amount = Some (p', k') /\
    k' <= k /\
    all_ready (world k') (seq fresh (range_len (n_new p amount))) = true /\
    (forall j, j < k' ->
       all_ready (world j) (seq fresh (range_len (n_new p amount))) = false) /\
    _threads p' = _threads p ++ seq fresh (range_len (n_new p amount)) /\
    ((0 < max p)%Z ->
       (Z.of_nat (length (_threads p'))
        <= Z.max (max p) (Z.of_nat (length (_threads p))))%Z /\
       (Z.of_nat (range_len (n_new p amount))
        <= Z.max (max p - Z.of_nat (length (_threads p))) 0)%Z) /\
    ((max p <= 0)%Z ->
       (Z.of_nat (length (_threads p'))
        = Z.of_nat (length (_threads p)) + Z.max amount 0)%Z).
Proof.
  intros Hr. unfold grow.
  destruct (wait_ready_complete world _ k 0 k (Nat.le_refl k) Hr)
    as (k' & Hw & Hle).
  rewrite Hw. exists (with_threads (_threads p ++ seq fresh (range_len (n_new p amount))) p), k'.
  destruct (wait_ready_sound _ _ _ _ _ Hw) as (_ & Hready & Hbefore).
  split; [reflexivity|]. split; [lia|]. split; [exact Hready|].
  split; [intros j Hj; apply Hbefore; lia|].
  split; [reflexivity|].
  cbn [with_threads _threads max].
  rewrite length_app, length_seq.
  unfold range_len, n_new, budget.
  split; intros Hmax.
  - destruct (Z.ltb_spec 0 (max p)); lia.
  - destruct (Z.ltb_spec 0 (max p)); lia.
Qed.

Lemma grow_within_max_witness :
  exists p' k',
    grow 0 (fun _ _ => Sample.waiting) 1 (Sample.pool 1 2 [0]) 5
      = Some (p', k') /\
    _threads p' = [0; 1].
Proof.
  destruct (grow_within_max (fun _ _ => Sample.waiting) 1 (Sample.pool 1 2 [0]) 5 0)
    as (p' & k' & H1 & _ & _ & _ & H2 & _).
  - reflexivity.
  - exists p', k'. split; [exact H1|exact H2].
Defined.

End Growing.

(** ** Statistics *)

Section Statistics.
Import Py WorkerThread.
Local Open Scope Q_scope.

Lemma eps_positive : 0 < eps.
Proof. reflexivity. Qed.

Lemma or_nonzero x y : ~ y == 0 -> ~ or_ x y == 0.
Proof.
  intros Hy. unfold or_. destruct (Qeq_bool x 0) eqn:E; [exact Hy|].
  now apply Qeq_bool_neq.
Qed.

Lemma or_zero x y : x == 0 -> or_ x y = y.
Proof.
  intros Hx. unfold or_. apply Qeq_bool_iff in Hx. now rewrite Hx.
Qed.

Lemma or_not_zero x y : ~ x == 0 -> or_ x y = x.
Proof.
  intros Hx. unfold or_. destruct (Qeq_bool x 0) eqn:E; [|reflexivity].
  apply Qeq_bool_iff in E. contradiction.
Qed.

(** C9 as stated fails for a work time between zero and [1e-6]: with one
    byte read in half a microsecond the entry gives 2000000, the quotient
    by [max(work time, 1e-6)] is 1000000. *)
Lemma throughput_not_over_max :
  exists x,
    stat_Read_Throughput SampleStats.brief 0 = Ok x /\
    ~ x == ClaimedStats.throughput 1 (stat_Work_Time SampleStats.brief 0).
Proof.
  eexists. split; [reflexivity|].
  vm_compute. discriminate.
Qed.

(** C9, amended: both throughputs divide by the work time, or by [1e-6]
    when the work time is zero; the divisor is never zero, and it is
    [max(work time, 1e-6)] exactly when the work time is zero or at least
    [1e-6].  While the worker is inside [communicate()] with its timer
    running ([start_time] is set, which [log_start_stats] does on entering
    the call when statistics are enabled) the figures are the banked totals
    plus the counters of the connection being processed and the time since
    the timer started, and each throughput is the byte figure over the
    divisor; while no timer runs they are the banked totals.  In the one
    remaining state, a timer running with [self.conn] at [None], the
    count and byte figures and both throughputs raise [AttributeError]. *)
Theorem throughput_divisor (w : attrs) (now : Q) :
  ~ divisor w now == 0 /\
  (stat_Work_Time w now == 0 -> divisor w now = eps) /\
  (~ stat_Work_Time w now == 0 -> divisor w now = stat_Work_Time w now) /\
  (divisor w now == Qmax (stat_Work_Time w now) eps <->
   stat_Work_Time w now == 0 \/ eps <= stat_Work_Time w now) /\
  stat_Read_Throughput w now
    = map_result (fun b => inject_Z b / divisor w now) (stat_Bytes_Read w) /\
  stat_Write_Throughput w now
    = map_result (fun b => inject_Z b / divisor w now) (stat_Bytes_Written w) /\
  (forall c t0, conn w = Some c -> start_time w = Some t0 ->
     stat_Requests w = Ok (requests_seen w + Conn.requests_seen c)%Z /\
     stat_Bytes_Read w = Ok (bytes_read w + Conn.rfile_bytes_read c)%Z /\
     stat_Bytes_Written w = Ok (bytes_written w + Conn.wfile_bytes_written c)%Z /\
     stat_Work_Time w now = work_time w + (now - t0) /\
     stat_Read_Throughput w now
       = Ok (inject_Z (bytes_read w + Conn.rfile_bytes_read c) / divisor w now) /\
     stat_Write_Throughput w now
       = Ok (inject_Z (bytes_written w + Conn.wfile_bytes_written c)
             / divisor w now)) /\
  (start_time w = None ->
     stat_Requests w = Ok (requests_seen w + 0)%Z /\
     stat_Bytes_Read w = Ok (bytes_read w + 0)%Z /\
     stat_Bytes_Written w = Ok (bytes_written w + 0)%Z /\
     stat_Work_Time w now = work_time w /\
     stat_Read_Throughput w now
       = Ok (inject_Z (bytes_read w + 0) / divisor w now) /\
     stat_Write_Throughput w now
       = Ok (inject_Z (bytes_written w + 0) / divisor w now)) /\
  (forall t0, conn w = None -> start_time w = Some t0 ->
     stat_Requests w = Raise AttributeError /\
     stat_Bytes_Read w = Raise AttributeError /\
     stat_Bytes_Written w = Raise AttributeError /\
     stat_Work_Time w now = work_time w + (now - t0) /\
     stat_Read_Throughput w now = Raise AttributeError /\
     stat_Write_Throughput w now = Raise AttributeError).
Proof.
  split; [apply or_nonzero; discriminate|].
  split; [apply or_zero|].
  split; [apply or_not_zero|].
  split.
  { split.
    - intros Hmax. destruct (Qeq_dec (stat_Work_Time w now) 0) as [H0|Hne];
        [now left|right].
      unfold divisor in Hmax. rewrite (or_not_zero _ _ Hne) in Hmax.
      rewrite Hmax. apply Q.le_max_r.
    - intros [H0|Hge].
      + unfold divisor. rewrite (or_zero _ _ H0).
        symmetry. apply Q.max_r. rewrite H0. discriminate.
      + assert (Hne : ~ stat_Work_Time w now == 0).
        { intros H0. rewrite H0 in Hge. now apply Hge. }
        unfold divisor. rewrite (or_not_zero _ _ Hne).
        symmetry. now apply Q.max_l. }
  split; [reflexivity|]. split; [reflexivity|].
  split; [|split].
  - intros c t0 Hc Ht.
    unfold stat_Read_Throughput, stat_Write_Throughput, stat_Requests,
      stat_Bytes_Read, stat_Bytes_Written, stat_Work_Time, live_part.
    rewrite Hc, Ht. cbn [map_result]. now repeat split.
  - intros Ht.
    unfold stat_Read_Throughput, stat_Write_Throughput, stat_Requests,
      stat_Bytes_Read, stat_Bytes_Written, stat_Work_Time, live_part.
    rewrite Ht. cbn [map_result]. now repeat split.
  - intros t0 Hc Ht.
    unfold stat_Read_Throughput, stat_Write_Throughput, stat_Requests,
      stat_Bytes_Read, stat_Bytes_Written, stat_Work_Time, live_part.
    rewrite Hc, Ht. cbn [map_result]. now repeat split.
Qed.

Lemma throughput_divisor_witness :
  stat_Bytes_Read SampleStats.busy = Ok 17%Z /\
  stat_Work_Time SampleStats.busy 5 = 4 + (5 - 3) /\
  divisor SampleStats.busy 5 == Qmax (stat_Work_Time SampleStats.busy 5) eps /\
  stat_Read_Throughput SampleStats.busy 5
  = Ok (inject_Z (10 + 7) / divisor SampleStats.busy 5).
Proof.
  destruct (throughput_divisor SampleStats.busy 5)
    as (_ & _ & _ & Hmax & _ & _ & Hlive & _).
  destruct (Hlive SampleStats.busy_conn 3 eq_refl eq_refl)
    as (_ & Hb & _ & Ht & Hr & _).
  split; [exact Hb|]. split; [exact Ht|].
  split; [|exact Hr].
  apply Hmax. right. vm_compute. discriminate.
Defined.

(** Entering [communicate()] with statistics enabled starts the timer and
    sets [conn], so a sample taken inside the call adds the live
    counters. *)
Lemma begin_process_starts_timer env sock s s' c :
  enabled_at_start env c = true ->
  begin_process env sock s = (s', Ok c) ->
  conn (self s') = Some c /\ start_time (self s') = Some (t_start env c).
Proof.
  intros Hen H. unfold begin_process in H.
  destruct (Dict.get (conn_socks s) sock) as [[c0 t0]|]; [|discriminate].
  unfold bind, modify, log_start_stats, emit, ret in H.
  destruct (enabled_at_start env c0) eqn:E0;
    simpl in H; injection H as <- <-; [now split|congruence].
Qed.

End Statistics.

(** ** The owned-set: facts about the dict *)

Section DictFacts.
Import Py.
Context {V : Type}.
Implicit Types (d : Dict.t V) (k : nat) (v : V).

Lemma get_In d k v : Dict.get d k = Some v -> In (k, v) d.
Proof.
  induction d as [|[k' v'] d IH]; simpl; [discriminate|].
  destruct (Nat.eqb_spec k k') as [->|Hne].
  - intros [= ->]. now left.
  - intros H. right. now apply IH.
Qed.

Lemma get_None_keys d k : Dict.get d k = None <-> ~ In k (Dict.keys d).
Proof.
  induction d as [|[k' v'] d IH]; simpl; [tauto|].
  destruct (Nat.eqb_spec k k') as [->|Hne].
  - split; [discriminate|]. intros H. exfalso. apply H. now left.
  - rewrite IH. split; intros H; [intros [Heq|Hin]; [congruence|tauto]|tauto].
Qed.

Lemma In_get d k v : NoDup (Dict.keys d) -> In (k, v) d -> Dict.get d k = Some v.
Proof.
  induction d as [|[k' v'] d IH]; simpl; [tauto|].
  intros Hnd [Heq|Hin].
  - injection Heq as -> ->. now rewrite Nat.eqb_refl.
  - inversion Hnd as [|? ? Hk Hd]; subst.
    destruct (Nat.eqb_spec k k') as [->|Hne].
    + exfalso. apply Hk. change k' with (fst (k', v)). now apply in_map.
    + now apply IH.
Qed.

Lemma get_set_same d k v : Dict.get (Dict.set d k v) k = Some v.
Proof.
  induction d as [|[k' v'] d IH]; simpl.
  - now rewrite Nat.eqb_refl.
  - destruct (Nat.eqb_spec k k') as [->|Hne]; simpl.
    + now rewrite Nat.eqb_refl.
    + destruct (Nat.eqb_spec k k'); [contradiction|exact IH].
Qed.

Lemma get_set_other d k k' v :
  k' <> k -> Dict.get (Dict.set d k v) k' = Dict.get d k'.
Proof.
  intros Hne. induction d as [|[k0 v0] d IH]; simpl.
  - destruct (Nat.eqb_spec k' k); [contradiction|reflexivity].
  - destruct (Nat.eqb_spec k k0) as [->|Hne0]; simpl.
    + destruct (Nat.eqb_spec k' k0); [contradiction|reflexivity].
    + now rewrite IH.
Qed.

(** Assigning to a key that is present keeps every key at its place. *)
Lemma keys_set_present d k v :
  Dict.get d k <> None -> Dict.keys (Dict.set d k v) = Dict.keys d.
Proof.
  unfold Dict.keys.
  induction d as [|[k' v'] d IH]; simpl; [congruence|].
  destruct (Nat.eqb_spec k k') as [->|Hne]; simpl; [reflexivity|].
  intros H. now rewrite IH.
Qed.

Lemma keys_set_absent d k v :
  Dict.get d k = None -> Dict.keys (Dict.set d k v) = Dict.keys d ++ [k].
Proof.
  unfold Dict.keys.
  induction d as [|[k' v'] d IH]; simpl; [reflexivity|].
  destruct (Nat.eqb_spec k k') as [->|Hne]; simpl; [discriminate|].
  intros H. now rewrite IH.
Qed.

Lemma NoDup_keys_set d k v :
  NoDup (Dict.keys d) -> NoDup (Dict.keys (Dict.set d k v)).
Proof.
  intros Hnd. destruct (Dict.get d k) eqn:E.
  - rewrite keys_set_present; [exact Hnd|congruence].
  - rewrite keys_set_absent by exact E.
    apply NoDup_app; [exact Hnd|repeat constructor; simpl; tauto|].
    intros x Hx [<-|[]]. now apply get_None_keys in E.
Qed.

Lemma In_set d k v k' v' :
  In (k', v') (Dict.set d k v) -> (k' = k /\ v' = v) \/ In (k', v') d.
Proof.
  induction d as [|[k0 v0] d IH]; simpl.
  - intros [[= <- <-]|[]]. now left.
  - destruct (Nat.eqb_spec k k0) as [->|Hne]; simpl.
    + intros [[= <- <-]|Hin]; [now left|right; now right].
    + intros [Heq|Hin]; [right; now left|].
      destruct (IH Hin) as [H|H]; [now left|right; now right].
Qed.

Lemma In_remove d k k' v' : In (k', v') (Dict.remove d k) -> In (k', v') d.
Proof.
  induction d as [|[k0 v0] d IH]; simpl; [tauto|].
  destruct (Nat.eqb k k0); simpl; [now right|].
  intros [Heq|Hin]; [now left|right; now apply IH].
Qed.

Lemma keys_remove_incl d k : incl (Dict.keys (Dict.remove d k)) (Dict.keys d).
Proof.
  unfold Dict.keys.
  induction d as [|[k0 v0] d IH]; simpl; intros x Hx; [exact Hx|].
  destruct (Nat.eqb k k0); simpl in *; [now right|].
  destruct Hx as [<-|Hx]; [now left|right; now apply IH].
Qed.

Lemma NoDup_keys_remove d k :
  NoDup (Dict.keys d) -> NoDup (Dict.keys (Dict.remove d k)).
Proof.
  unfold Dict.keys.
  induction d as [|[k0 v0] d IH]; simpl; intros Hnd; [exact Hnd|].
  inversion Hnd as [|? ? Hk Hd]; subst.
  destruct (Nat.eqb k k0); simpl; [exact Hd|].
  constructor; [|now apply IH].
  intros Hin. apply Hk. now apply (keys_remove_incl d k).
Qed.

Lemma get_remove_same d k :
  NoDup (Dict.keys d) -> Dict.get (Dict.remove d k) k = None.
Proof.
  induction d as [|[k0 v0] d IH]; simpl; intros Hnd; [reflexivity|].
  inversion Hnd as [|? ? Hk Hd]; subst.
  destruct (Nat.eqb_spec k k0) as [->|Hne]; simpl.
  - now apply get_None_keys.
  - destruct (Nat.eqb_spec k k0); [contradiction|now apply IH].
Qed.

Lemma get_remove_other d k k' :
  k' <> k -> Dict.get (Dict.remove d k) k' = Dict.get d k'.
Proof.
  intros Hne. induction d as [|[k0 v0] d IH]; simpl; [reflexivity|].
  destruct (Nat.eqb_spec k k0) as [->|Hne0]; simpl.
  - destruct (Nat.eqb_spec k' k0); [contradiction|reflexivity].
  - now rewrite IH.
Qed.

End DictFacts.

Section Processing.
Import Py WorkerThread.

Lemma owned_socket d sock c t0 :
  Owned.ok d -> Dict.get d sock = Some (c, t0) -> Conn.socket c = sock.
Proof. intros [_ H] Hg. apply (H sock c t0). now apply get_In. Qed.

Lemma socket_with_counters c n :
  Conn.socket (Conn.with_counters c n) = Conn.socket c.
Proof. now destruct n as [[r br] bw]. Qed.

Lemma ident_with_counters c n :
  Conn.ident (Conn.with_counters c n) = Conn.ident c.
Proof. now destruct n as [[r br] bw]. Qed.

Lemma begin_process_found env sock s c t0 :
  Dict.get (conn_socks s) sock = Some (c, t0) ->
  exists s1,
    begin_process env sock s = (s1, Ok c) /\
    conn_socks s1 = conn_socks s /\
    interrupt s1 = interrupt s /\
    log s1 = log s ++ [Ev_communicate (Conn.ident c)] /\
    conn (self s1) = Some c /\
    start_time (self s1)
      = (if enabled_at_start env c then Some (t_start env c)
         else start_time (self s)).
Proof.
  intros Hget. unfold begin_process. rewrite Hget.
  unfold bind, modify, log_start_stats, emit, ret.
  destruct (enabled_at_start env c); cbn; eexists; repeat split; cbn; congruence.
Qed.

(** The timer runs after line 147 when statistics were enabled there, or
    when an earlier timer was never stopped. *)
Lemma timer_after_begin env c s s1 :
  start_time (self s1)
    = (if enabled_at_start env c then Some (t_start env c)
       else start_time (self s)) ->
  (enabled_at_close env c = true ->
   enabled_at_start env c = true \/ start_time (self s) <> None) ->
  enabled_at_close env c = true -> start_time (self s1) <> None.
Proof.
  intros -> H Hc. destruct (enabled_at_start env c); [discriminate|].
  destruct (H Hc) as [|]; [discriminate|assumption].
Qed.

Lemma log_close_stats_runs enabled now s :
  conn (self s) <> None ->
  (enabled = true -> start_time (self s) <> None) ->
  exists s',
    log_close_stats enabled now s = (s', Ok tt) /\
    conn_socks s' = conn_socks s /\
    interrupt s' = interrupt s /\
    log s' = log s.
Proof.
  intros Hc Ht. unfold log_close_stats.
  destruct enabled.
  - destruct (conn (self s)); [|congruence].
    destruct (start_time (self s)); [|now specialize (Ht eq_refl)].
    eexists. repeat split.
  - eexists. repeat split.
Qed.

Lemma end_process_raised env c cnt e s :
  is_Exception e = true ->
  Dict.get (conn_socks s) (Conn.socket c) <> None ->
  (enabled_at_close env c = true -> start_time (self s) <> None) ->
  exists s',
    end_process env c (cnt, Some e) s = (s', Ok tt) /\
    conn_socks s' = Dict.remove (conn_socks s) (Conn.socket c) /\
    interrupt s' = interrupt s /\
    log s' = log s ++ [Ev_close (Conn.ident c); Ev_pop (Conn.socket c)] /\
    conn (self s') = None.
Proof.
  intros Hexc Hget Ht. unfold end_process. cbn [fst snd]. rewrite Hexc.
  rewrite socket_with_counters, ident_with_counters.
  unfold bind, modify, emit, pop_conn, Dict.pop.
  cbn [set_self conn_socks self log interrupt].
  destruct (Dict.get (conn_socks s) (Conn.socket c)); [|congruence].
  match goal with
  | |- context [log_close_stats ?b ?n ?s0] =>
      destruct (log_close_stats_runs b n s0) as (s1 & -> & H1 & H2 & H3)
  end.
  - cbn. discriminate.
  - exact Ht.
  - eexists. split; [reflexivity|]. cbn.
    rewrite H1, H2, H3. cbn. rewrite <- app_assoc. now repeat split.
Qed.

Lemma end_process_returned env c cnt s :
  (enabled_at_close env c = true -> start_time (self s) <> None) ->
  exists s',
    end_process env c (cnt, None) s = (s', Ok tt) /\
    conn_socks s' =
      Dict.set (conn_socks s) (Conn.socket c)
        (Conn.with_counters c cnt, t_refresh env c) /\
    interrupt s' = interrupt s /\
    log s' = log s /\
    conn (self s') = None.
Proof.
  intros Ht. unfold end_process. cbn [fst snd].
  rewrite socket_with_counters.
  unfold bind, modify.
  cbn [set_self set_conn_socks conn_socks self log interrupt].
  match goal with
  | |- context [log_close_stats ?b ?n ?s0] =>
      destruct (log_close_stats_runs b n s0) as (s1 & -> & H1 & H2 & H3)
  end.
  - cbn. discriminate.
  - exact Ht.
  - eexists. split; [reflexivity|]. cbn.
    rewrite H1, H2, H3. now repeat split.
Qed.

(** The loop of [process_conns] on a connection of the owned-set stored
    under a ready socket, when [log_close_stats] finds a timer (statistics
    are off at line 155, or were on at line 147, or an earlier timer still
    runs): if [communicate()] raises an error (an [Exception]), the body
    closes the connection, removes its entry and ends normally, so the loop
    goes on with the remaining sockets from the state reached; if it
    returns, the entry is overwritten at its place with the connection and
    the clock reading of line 154.  No other entry changes. *)
Lemma process_one_contains_failure env s sock c t0 :
  Owned.ok (conn_socks s) ->
  Dict.get (conn_socks s) sock = Some (c, t0) ->
  (enabled_at_close env c = true ->
   enabled_at_start env c = true \/ start_time (self s) <> None) ->
  (forall e, snd (communicate env c) = Some e -> is_Exception e = true ->
     exists s',
       process_one env sock s = (s', Ok tt) /\
       Dict.get (conn_socks s') sock = None /\
       (forall k, k <> sock ->
          Dict.get (conn_socks s') k = Dict.get (conn_socks s) k) /\
       log s' = log s ++ Owned.retired c /\
       conn (self s') = None /\
       (forall rest,
          for_each (process_one env) (sock :: rest) s
          = for_each (process_one env) rest s')) /\
  (snd (communicate env c) = None ->
     exists s',
       process_one env sock s = (s', Ok tt) /\
       Dict.get (conn_socks s') sock
         = Some (Conn.with_counters c (fst (communicate env c)),
                 t_refresh env c) /\
       Dict.keys (conn_socks s') = Dict.keys (conn_socks s) /\
       (forall k, k <> sock ->
          Dict.get (conn_socks s') k = Dict.get (conn_socks s) k) /\
       log s' = log s ++ [Ev_communicate (Conn.ident c)] /\
       conn (self s') = None /\
       (forall rest,
          for_each (process_one env) (sock :: rest) s
          = for_each (process_one env) rest s')).
Proof.
  intros Hok Hget Hflag.
  pose proof (owned_socket _ _ _ _ Hok Hget) as Hsock.
  destruct (begin_process_found env sock s c t0 Hget)
    as (s1 & Hb & Hd & Hi & Hl & Hc & Ht0).
  pose proof (timer_after_begin env c s s1 Ht0 Hflag) as Ht.
  destruct (communicate env c) as [cnt o] eqn:Hcomm. cbn [fst snd].
  split.
  - intros e -> Hexc.
    destruct (end_process_raised env c cnt e s1 Hexc) as (s' & He & Hd' & _ & Hl' & Hc').
    { rewrite Hd, Hsock, Hget. discriminate. }
    { exact Ht. }
    assert (Hp : process_one env sock s = (s', Ok tt)).
    { unfold process_one, bind. now rewrite Hb, Hcomm, He. }
    exists s'. split; [exact Hp|].
    rewrite Hd', Hd, Hsock.
    split; [apply get_remove_same, Hok|].
    split; [intros k Hk; now apply get_remove_other|].
    split; [rewrite Hl', Hl, <- app_assoc; reflexivity|].
    split; [exact Hc'|].
    intros rest. cbn [for_each]. unfold bind at 1. now rewrite Hp.
  - intros ->.
    destruct (end_process_returned env c cnt s1 Ht) as (s' & He & Hd' & _ & Hl' & Hc').
    assert (Hp : process_one env sock s = (s', Ok tt)).
    { unfold process_one, bind. now rewrite Hb, Hcomm, He. }
    exists s'. split; [exact Hp|].
    rewrite Hd', Hd, Hsock.
    split; [apply get_set_same|].
    split; [apply keys_set_present; rewrite Hget; discriminate|].
    split; [intros k Hk; now apply get_set_other|].
    split; [now rewrite Hl', Hl|].
    split; [exact Hc'|].
    intros rest. cbn [for_each]. unfold bind at 1. now rewrite Hp.
Qed.

(** Line 155 without a timer: [log_close_stats] adds the counters and
    raises [TypeError] at line 117; line 156 is not reached. *)
Lemma log_close_stats_no_timer now s c :
  conn (self s) = Some c ->
  start_time (self s) = None ->
  exists s',
    log_close_stats true now s = (s', Raise TypeError) /\
    conn_socks s' = conn_socks s /\
    interrupt s' = interrupt s /\
    log s' = log s /\
    conn (self s') = Some c /\
    start_time (self s') = None /\
    work_time (self s') = work_time (self s) /\
    requests_seen (self s') = (requests_seen (self s) + Conn.requests_seen c)%Z /\
    bytes_read (self s') = (bytes_read (self s) + Conn.rfile_bytes_read c)%Z /\
    bytes_written (self s')
      = (bytes_written (self s) + Conn.wfile_bytes_written c)%Z.
Proof.
  intros Hc Ht. unfold log_close_stats. rewrite Hc, Ht.
  eexists. split; [reflexivity|]. cbn. now repeat split.
Qed.

(** C7: the body of the loop of [process_conns] does not contain every
    failure.  When [server.stats['Enabled']] is false at line 147 and true
    at line 155, and no earlier timer runs, the entry of the connection is
    handled as claimed (closed and removed when [communicate()] raised an
    [Exception], overwritten with the new clock reading when it returned),
    but then line 117 raises [TypeError]: the body and the loop end with
    it, the remaining ready sockets are not served, [self.conn] stays set,
    and the thread leaves [run] by [TypeError]. *)
Theorem process_one_stats_switched_on env s sock c t0 :
  Owned.ok (conn_socks s) ->
  Dict.get (conn_socks s) sock = Some (c, t0) ->
  start_time (self s) = None ->
  enabled_at_start env c = false ->
  enabled_at_close env c = true ->
  (forall e, snd (communicate env c) = Some e -> is_Exception e = true) ->
  exists s',
    process_one env sock s = (s', Raise TypeError) /\
    (forall e, snd (communicate env c) = Some e ->
       Dict.get (conn_socks s') sock = None /\
       log s' = log s ++ Owned.retired c) /\
    (snd (communicate env c) = None ->
       Dict.get (conn_socks s') sock
         = Some (Conn.with_counters c (fst (communicate env c)),
                 t_refresh env c) /\
       log s' = log s ++ [Ev_communicate (Conn.ident c)]) /\
    (forall k, k <> sock ->
       Dict.get (conn_socks s') k = Dict.get (conn_socks s) k) /\
    conn (self s') = Some (Conn.with_counters c (fst (communicate env c))) /\
    (forall rest,
       for_each (process_one env) (sock :: rest) s = (s', Raise TypeError)) /\
    (forall srv g g' rest,
       step srv env g'
         (step srv env g (mkThread (InLoop (sock :: rest)) s))
       = mkThread (Crashed TypeError) s') /\
    isAlive (mkThread (Crashed TypeError) s') = false.
Proof.
  intros Hok Hget Hnone Hoff Hon Hexc.
  pose proof (owned_socket _ _ _ _ Hok Hget) as Hsock.
  destruct (begin_process_found env sock s c t0 Hget)
    as (s1 & Hb & Hd & Hi & Hl & Hc & Ht0).
  rewrite Hoff, Hnone in Ht0.
  destruct (communicate env c) as [cnt o] eqn:Hcomm. cbn [fst snd] in *.
  assert (He : exists s',
    end_process env c (cnt, o) s1 = (s', Raise TypeError) /\
    conn_socks s' =
      match o with
      | Some _ => Dict.remove (conn_socks s) sock
      | None => Dict.set (conn_socks s) sock
                  (Conn.with_counters c cnt, t_refresh env c)
      end /\
    log s' = log s1 ++
      match o with
      | Some _ => [Ev_close (Conn.ident c); Ev_pop (Conn.socket c)]
      | None => []
      end /\
    conn (self s') = Some (Conn.with_counters c cnt)).
  { unfold end_process. cbn [fst snd]. rewrite Hon.
    rewrite socket_with_counters.
    destruct o as [e|].
    - rewrite (Hexc e eq_refl), ident_with_counters.
      unfold bind, modify, emit, pop_conn, Dict.pop.
      cbn [set_self conn_socks self log interrupt].
      rewrite Hd, Hsock, Hget.
      match goal with
      | |- context [log_close_stats true ?n ?s0] =>
          destruct (log_close_stats_no_timer n s0 (Conn.with_counters c cnt))
            as (s2 & -> & H1 & _ & H3 & H4 & _)
      end; [reflexivity|cbn; exact Ht0|].
      exists s2. split; [reflexivity|].
      rewrite H1, H3, H4. cbn. rewrite <- app_assoc. now repeat split.
    - unfold bind, modify.
      cbn [set_self set_conn_socks conn_socks self log interrupt].
      match goal with
      | |- context [log_close_stats true ?n ?s0] =>
          destruct (log_close_stats_no_timer n s0 (Conn.with_counters c cnt))
            as (s2 & -> & H1 & _ & H3 & H4 & _)
      end; [reflexivity|cbn; exact Ht0|].
      exists s2. split; [reflexivity|].
      rewrite H1, H3, H4. cbn. rewrite Hd, Hsock, app_nil_r. now repeat split. }
  destruct He as (s' & He & Hd' & Hl' & Hc').
  assert (Hp : process_one env sock s = (s', Raise TypeError)).
  { unfold process_one, bind. now rewrite Hb, Hcomm, He. }
  exists s'. split; [exact Hp|].
  split.
  { intros e ->. rewrite Hd'. split; [apply get_remove_same, Hok|].
    rewrite Hl', Hl, <- app_assoc. reflexivity. }
  split.
  { intros ->. rewrite Hd'. split; [apply get_set_same|].
    now rewrite Hl', Hl, app_nil_r. }
  split.
  { intros k Hk. rewrite Hd'. destruct o.
    - now apply get_remove_other.
    - now apply get_set_other. }
  split; [exact Hc'|].
  split.
  { intros rest. cbn [for_each]. unfold bind at 1. now rewrite Hp. }
  split; [|reflexivity].
  intros srv g g' rest. cbn [step at_pc st]. rewrite Hb.
  cbn [step at_pc st]. rewrite Hcomm, He. reflexivity.
Qed.

End Processing.

Section ProcessingWitness.
Import Py WorkerThread SampleWorker.

Lemma owning_ok : Owned.ok (conn_socks owning).
Proof.
  split.
  - repeat constructor; simpl; intuition discriminate.
  - intros k c t [H|[H|[]]]; injection H as <- <- _; reflexivity.
Qed.

Lemma process_one_contains_failure_witness :
  (exists s',
     process_one failing 11 owning = (s', Ok tt) /\
     Dict.get (conn_socks s') 11 = None /\
     log s' = Owned.retired c1) /\
  (exists s',
     process_one failing 12 owning = (s', Ok tt) /\
     Dict.get (conn_socks s') 12
       = Some (Conn.with_counters c2 (1, 5, 0)%Z, 21%Q)).
Proof.
  split.
  - destruct (process_one_contains_failure failing owning 11 c1 0%Q
                owning_ok eq_refl (fun _ => or_introl eq_refl)) as [H _].
    destruct (H Error eq_refl eq_refl) as (s' & H1 & H2 & _ & H3 & _).
    exists s'. repeat split; assumption.
  - destruct (process_one_contains_failure failing owning 12 c2 0%Q
                owning_ok eq_refl (fun _ => or_introl eq_refl)) as [_ H].
    destruct (H eq_refl) as (s' & H1 & H2 & _).
    exists s'. split; assumption.
Defined.

End ProcessingWitness.

(** ** The expiry sweep *)

Section Sweep.
Import Py WorkerThread.
Local Open Scope Q_scope.

Lemma Qlt_bool_iff x y : Qlt_bool x y = true <-> x < y.
Proof.
  unfold Qlt_bool. rewrite negb_true_iff.
  split.
  - intros H. apply Qnot_le_lt. intros Hle.
    apply Qle_bool_iff in Hle. congruence.
  - intros H. destruct (Qle_bool y x) eqn:E; [|reflexivity].
    apply Qle_bool_iff in E. exfalso. now apply (Qlt_not_le x y).
Qed.

(** A connection has expired when the time since its last activity is
    strictly more than [server.timeout]. *)
Lemma conn_expired_iff srv last_active cur_time :
  conn_expired srv last_active cur_time = true
  <-> timeout srv < cur_time - last_active.
Proof. apply Qlt_bool_iff. Qed.

Lemma In_expired srv d cur_time c :
  In c (get_expired_conns srv d cur_time) <->
  exists k la, In (k, (c, la)) d /\ conn_expired srv la cur_time = true.
Proof.
  unfold get_expired_conns, Dict.values.
  rewrite in_map_iff. split.
  - intros [[c' la] [<- Hin]]. apply filter_In in Hin. destruct Hin as [Hin Hex].
    apply in_map_iff in Hin. destruct Hin as [[k v] [Hv Hin]].
    simpl in Hv. subst v. now exists k, la.
  - intros (k & la & Hin & Hex). exists (c, la). split; [reflexivity|].
    apply filter_In. split; [|exact Hex].
    apply in_map_iff. now exists (k, (c, la)).
Qed.

Lemma ok_tail k v (d : Dict.t (Conn.t * Q)) : Owned.ok ((k, v) :: d) -> Owned.ok d.
Proof.
  intros [Hnd Hs]. split.
  - now inversion Hnd.
  - intros k' c t Hin. apply (Hs k' c t). now right.
Qed.

Lemma expired_sockets_incl srv d cur_time :
  Owned.ok d ->
  incl (map Conn.socket (get_expired_conns srv d cur_time)) (Dict.keys d).
Proof.
  intros Hok s Hs. apply in_map_iff in Hs. destruct Hs as [c [<- Hc]].
  apply In_expired in Hc. destruct Hc as (k & la & Hin & _).
  destruct Hok as [_ Hsock]. rewrite (Hsock k c la Hin).
  change k with (fst (k, (c, la))). now apply in_map.
Qed.

Lemma expired_sockets_NoDup srv d cur_time :
  Owned.ok d -> NoDup (map Conn.socket (get_expired_conns srv d cur_time)).
Proof.
  induction d as [|[k [c la]] d IH]; intros Hok; [constructor|].
  pose proof (ok_tail _ _ _ Hok) as Hok'.
  unfold get_expired_conns, Dict.values. cbn [map filter snd].
  fold (Dict.values d).
  destruct (conn_expired srv la cur_time); [|now apply IH].
  cbn [map fst]. constructor; [|now apply IH].
  intros Hin. apply (expired_sockets_incl srv d cur_time Hok') in Hin.
  destruct Hok as [Hnd Hsock].
  rewrite (Hsock k c la (or_introl eq_refl)) in Hin.
  now inversion Hnd.
Qed.

(** [close_conns] when no flush raises: every connection of the list is
    flushed, closed and removed, in this order, one connection after the
    other. *)
Lemma close_conns_runs env l : forall s,
  NoDup (Dict.keys (conn_socks s)) ->
  (forall c, In c l -> flush env c = None) ->
  NoDup (map Conn.socket l) ->
  (forall c, In c l -> Dict.get (conn_socks s) (Conn.socket c) <> None) ->
  exists s',
    close_conns env l s = (s', Ok tt) /\
    self s' = self s /\
    (forall k, Dict.get (conn_socks s') k =
               if in_dec Nat.eq_dec k (map Conn.socket l) then None
               else Dict.get (conn_socks s) k) /\
    log s' = log s ++ flat_map Owned.retired l.
Proof.
  induction l as [|c l IH]; intros s Hnd Hflush Hl Hget.
  - exists s. cbn. rewrite app_nil_r. now repeat split.
  - cbn [close_conns]. rewrite (Hflush c (or_introl eq_refl)).
    unfold bind at 1, emit at 1. unfold bind at 1, emit at 1.
    unfold bind at 1, pop_conn at 1, Dict.pop.
    cbn [conn_socks self interrupt log].
    destruct (Dict.get (conn_socks s) (Conn.socket c)) eqn:E;
      [|now apply Hget in E; [|left]].
    inversion Hl as [|? ? Hc Hl']; subst.
    match goal with
    | |- context [close_conns env l ?s1] => destruct (IH s1) as (s' & Hr & Hs & Hg & Hlog)
    end.
    + cbn. now apply NoDup_keys_remove.
    + intros c' Hc'. apply Hflush. now right.
    + exact Hl'.
    + intros c' Hc'. cbn. rewrite get_remove_other.
      * apply Hget. now right.
      * intros Heq. apply Hc. rewrite <- Heq. now apply in_map.
    + exists s'. split; [exact Hr|]. split; [exact Hs|]. split.
      * intros k. rewrite Hg. cbn [conn_socks map].
        destruct (in_dec Nat.eq_dec k (map Conn.socket l)) as [Hin|Hnin];
          destruct (in_dec Nat.eq_dec k (Conn.socket c :: map Conn.socket l))
            as [Hin'|Hnin']; try reflexivity.
        -- exfalso. apply Hnin'. now right.
        -- destruct Hin' as [<-|Hin']; [|contradiction].
           now apply get_remove_same.
        -- apply get_remove_other. intros ->. apply Hnin'. now left.
      * rewrite Hlog. cbn [log flat_map]. unfold Owned.retired at 2.
        rewrite <- !app_assoc. reflexivity.
Qed.

(** Whatever happens, [close_conns] leaves the thread object alone and the
    owned-set well formed. *)
Lemma close_conns_keeps env l : forall s s' r,
  close_conns env l s = (s', r) ->
  self s' = self s /\
  interrupt s' = interrupt s /\
  (Owned.ok (conn_socks s) -> Owned.ok (conn_socks s')).
Proof.
  induction l as [|c l IH]; intros s s' r H.
  - cbn in H. injection H as <- <-. auto.
  - cbn [close_conns] in H. unfold bind at 1, emit at 1 in H.
    destruct (flush env c).
    + cbn in H. injection H as <- <-. auto.
    + unfold bind at 1, emit at 1 in H.
      unfold bind at 1, pop_conn at 1, Dict.pop in H.
      cbn [conn_socks self interrupt log] in H.
      destruct (Dict.get (conn_socks s) (Conn.socket c)).
      * apply IH in H. cbn in H. destruct H as (H1 & H2 & H3).
        split; [exact H1|]. split; [exact H2|].
        intros [Hnd Hs]. apply H3. split.
        -- now apply NoDup_keys_remove.
        -- intros k c' t Hin. apply (Hs k c' t).
           now apply In_remove in Hin.
      * injection H as <- <-. auto.
Qed.

End Sweep.

Section SweepClaims.
Import Py WorkerThread.
Local Open Scope Q_scope.

(** X16: a sweep in which no flush raises: an entry is retired exactly when the
    time since its last activity is strictly more than [server.timeout];
    its connection is then flushed, closed and removed, in this order; an
    entry that has not expired is left as it is. *)
Lemma sweep_retires_expired srv env s cur_time :
  Owned.ok (conn_socks s) ->
  (forall c, In c (get_expired_conns srv (conn_socks s) cur_time) ->
             flush env c = None) ->
  exists s',
    close_conns env (get_expired_conns srv (conn_socks s) cur_time) s
      = (s', Ok tt) /\
    forall k c la, Dict.get (conn_socks s) k = Some (c, la) ->
      (timeout srv < cur_time - la ->
         Dict.get (conn_socks s') k = None /\
         exists before after,
           log s' = log s ++ before ++ Owned.retired c ++ after) /\
      (cur_time - la <= timeout srv ->
         Dict.get (conn_socks s') k = Some (c, la)).
Proof.
  intros Hok Hflush.
  destruct (close_conns_runs env (get_expired_conns srv (conn_socks s) cur_time) s)
    as (s' & Hr & _ & Hg & Hlog).
  - apply Hok.
  - exact Hflush.
  - now apply expired_sockets_NoDup.
  - intros c Hc. apply In_expired in Hc. destruct Hc as (k & la & Hin & _).
    destruct Hok as [Hnd Hsock]. rewrite (Hsock k c la Hin).
    rewrite (In_get _ _ _ Hnd Hin). discriminate.
  - exists s'. split; [exact Hr|].
    intros k c la Hget. pose proof (get_In _ _ _ Hget) as Hin.
    pose proof (owned_socket _ _ _ _ Hok Hget) as Hsock.
    split.
    + intros Hlt.
      assert (Hc : In c (get_expired_conns srv (conn_socks s) cur_time)).
      { apply In_expired. exists k, la. split; [exact Hin|].
        now apply conn_expired_iff. }
      split.
      * rewrite Hg.
        destruct (in_dec Nat.eq_dec k _) as [_|Hn]; [reflexivity|].
        exfalso. apply Hn. rewrite <- Hsock. now apply in_map.
      * apply in_split in Hc. destruct Hc as (l1 & l2 & Hl).
        exists (flat_map Owned.retired l1), (flat_map Owned.retired l2).
        rewrite Hlog, Hl, flat_map_app. reflexivity.
    + intros Hle. rewrite Hg.
      destruct (in_dec Nat.eq_dec k _) as [Hi|_]; [|exact Hget].
      exfalso. apply in_map_iff in Hi. destruct Hi as (c' & Hs' & Hc').
      apply In_expired in Hc'. destruct Hc' as (k' & la' & Hin' & Hex).
      destruct Hok as [Hnd Hsk].
      rewrite (Hsk k' c' la' Hin') in Hs'. subst k'.
      rewrite (In_get _ _ _ Hnd Hin') in Hget. injection Hget as -> ->.
      apply conn_expired_iff in Hex. now apply (Qlt_not_le _ _ Hex).
Qed.

(** C6, at a sweep over two expired connections where the flush of the
    first raises an error: [close_conns] lets it pass, so the first
    connection is neither closed nor removed, the second is not reached,
    and the exception ends the thread. *)
Lemma sweep_flush_error_ends_worker :
  exists s',
    step Sample.srv SampleWorker.failing Empty
      (mkThread AtSweep SampleWorker.owning)
    = mkThread (Crashed Error) s' /\
    get_expired_conns Sample.srv (conn_socks SampleWorker.owning) 20
    = [SampleWorker.c1; SampleWorker.c2] /\
    conn_socks s' = conn_socks SampleWorker.owning /\
    log s' = [Ev_communicate 1].
Proof. eexists. repeat split. Qed.

End SweepClaims.

(** ** The thread as a machine: what every reachable state satisfies *)

Section Machine.
Import Py WorkerThread.

Lemma ok_set d c t :
  Owned.ok d -> Owned.ok (Dict.set d (Conn.socket c) (c, t)).
Proof.
  intros [Hnd Hs]. split.
  - now apply NoDup_keys_set.
  - intros k c' t' Hin. apply In_set in Hin.
    destruct Hin as [[-> [= -> _]]|Hin]; [reflexivity|now apply (Hs k c' t')].
Qed.

Lemma ok_remove d k : Owned.ok d -> Owned.ok (Dict.remove d k).
Proof.
  intros [Hnd Hs]. split.
  - now apply NoDup_keys_remove.
  - intros k' c t Hin. apply (Hs k' c t). now apply In_remove in Hin.
Qed.

Lemma log_close_stats_keeps enabled now s s' r :
  log_close_stats enabled now s = (s', r) -> conn_socks s' = conn_socks s.
Proof.
  unfold log_close_stats. destruct enabled.
  - destruct (conn (self s)); [destruct (start_time (self s))|];
      intros [= <- _]; reflexivity.
  - intros [= <- _]. reflexivity.
Qed.

Lemma end_process_keeps env c out s s' r :
  end_process env c out s = (s', r) ->
  (Owned.ok (conn_socks s) -> Owned.ok (conn_socks s')) /\
  (r = Ok tt -> conn (self s') = None).
Proof.
  destruct out as [cnt o]. unfold end_process. cbn [fst snd].
  unfold bind at 1, modify at 1.
  set (s0 := set_self _ s).
  assert (Hs0 : conn_socks s0 = conn_socks s) by reflexivity.
  clearbody s0. unfold bind at 1.
  set (m := match o with Some e => _ | None => _ end).
  assert (Hm : forall s1 r1, m s0 = (s1, r1) ->
                 Owned.ok (conn_socks s) -> Owned.ok (conn_socks s1)).
  { subst m. intros s1 r1 H Hok. destruct o as [e|].
    - destruct (is_Exception e).
      + unfold bind, emit, pop_conn, Dict.pop in H. cbn in H.
        destruct (Dict.get (conn_socks s0) _); injection H as <- _; cbn;
          rewrite Hs0; [now apply ok_remove|exact Hok].
      + injection H as <- _. now rewrite Hs0.
    - unfold modify in H. injection H as <- _.
      cbn [conn_socks set_conn_socks]. rewrite Hs0. now apply ok_set. }
  clearbody m. destruct (m s0) as [s1 [[]|e]] eqn:E.
  - unfold bind.
    destruct (log_close_stats _ (t_close env c) s1) as [s2 [[]|e]] eqn:E2.
    + unfold modify. intros [= <- <-]. cbn.
      apply log_close_stats_keeps in E2. rewrite E2.
      split; [now apply (Hm s1 (Ok tt))|reflexivity].
    + intros [= <- <-]. apply log_close_stats_keeps in E2. rewrite E2.
      split; [now apply (Hm s1 (Ok tt))|discriminate].
  - intros [= <- <-]. split; [now apply (Hm s1 (Raise e))|discriminate].
Qed.

Lemma leave_keeps e s :
  conn_socks (st (leave e s)) = conn_socks s /\
  isAlive (leave e s) = false.
Proof. unfold leave. now destruct (is_Exception e). Qed.

Lemma inv_leave e s : Owned.ok (conn_socks s) -> Owned.inv (leave e s).
Proof.
  intros Hok. unfold leave, Owned.inv.
  destruct (is_Exception e); cbn; now split.
Qed.

(** One step of the machine keeps the invariant. *)
Lemma step_inv srv env g th : Owned.inv th -> Owned.inv (step srv env g th).
Proof.
  destruct th as [p s]. unfold Owned.inv, step. cbn [at_pc st].
  intros [Hok Hpc]. destruct p as [| |rl|c rest| | | |e].
  - cbn. split; [|exact Hpc]. split; [constructor|intros k c t []].
  - destruct g as [|[c|]]; cbn; split; try assumption.
    now apply ok_set.
  - destruct rl as [|sock rest]; [now split|].
    destruct (Dict.get (conn_socks s) sock) as [[c t0]|] eqn:E.
    + destruct (begin_process_found env sock s c t0 E)
        as (s1 & -> & Hd & _ & _ & Hc & _).
      cbn. rewrite Hd. now split.
    + unfold begin_process. rewrite E. now apply inv_leave.
  - destruct (end_process env c (communicate env c) s) as [s' [[]|e]] eqn:E;
      apply end_process_keeps in E; destruct E as [E1 E2]; cbn.
    + split; [now apply E1|now apply E2].
    + apply inv_leave. now apply E1.
  - destruct (close_conns env _ s) as [s' [[]|e]] eqn:E;
      apply close_conns_keeps in E; destruct E as (E1 & _ & E3); cbn.
    + split; [now apply E3|now rewrite E1].
    + apply inv_leave. now apply E3.
  - now split.
  - now split.
  - now split.
Qed.

Lemma reachable_inv th : reachable th -> Owned.inv th.
Proof.
  induction 1 as [|srv env g th _ IH].
  - split; [split; [constructor|intros k c t []]|reflexivity].
  - now apply step_inv.
Qed.

(** The reachable states are those [run] passes through. *)
Lemma reachable_run th : reachable th <-> exists moves, th = run moves.
Proof.
  split.
  - induction 1 as [|srv env g th _ [moves ->]].
    + now exists [].
    + exists (moves ++ [(srv, env, g)]). unfold run.
      now rewrite fold_left_app.
  - intros [moves ->]. unfold run.
    induction moves as [|[[srv env] g] moves IH] using rev_ind.
    + constructor.
    + rewrite fold_left_app. cbn. now constructor.
Qed.

(** Two steps of the machine from a ready socket are one turn of the loop
    of [process_conns]. *)
Lemma step_twice_process_one srv env g g' sock rest s :
  step srv env g' (step srv env g (mkThread (InLoop (sock :: rest)) s))
  = continue_at (InLoop rest) (process_one env sock s).
Proof.
  unfold process_one, bind. cbn [step at_pc st].
  destruct (begin_process env sock s) as [s1 [c|e]]; cbn [continue_at].
  - reflexivity.
  - unfold leave. now destruct (is_Exception e).
Qed.

(** For a thread that is alive, [conn] is [None] exactly when the thread is
    not inside [communicate()]; a thread that returned on a sentinel has
    [conn] at [None]. *)
Lemma conn_None_iff th :
  reachable th ->
  (isAlive th = true ->
   ThreadPool.conn_is_None th = negb (in_process th)) /\
  (at_pc th = Returned -> ThreadPool.conn_is_None th = true).
Proof.
  intros Hr. apply reachable_inv in Hr. destruct Hr as [_ Hpc].
  unfold ThreadPool.conn_is_None, isAlive, in_process.
  destruct (at_pc th); split; try discriminate; intros _; now rewrite Hpc.
Qed.

End Machine.

(** ** idle *)

Section Idle.
Import Py WorkerThread ThreadPool.

Lemma filter_length_split {A} (f g h : A -> bool) l :
  (forall x, In x l -> f x = g x || h x) ->
  (forall x, In x l -> g x && h x = false) ->
  length (filter f l) = length (filter g l) + length (filter h l).
Proof.
  induction l as [|x l IH]; intros Hf Hgh; [reflexivity|].
  cbn [filter]. rewrite (Hf x (or_introl eq_refl)).
  specialize (Hgh x (or_introl eq_refl)) as Hx.
  assert (IH' : length (filter f l) = length (filter g l) + length (filter h l)).
  { apply IH; intros y Hy; [apply Hf|apply Hgh]; now right. }
  destruct (g x), (h x); try discriminate; cbn; lia.
Qed.

Lemma filter_none {A} (f : A -> bool) l :
  (forall x, In x l -> f x = false) -> filter f l = [].
Proof.
  induction l as [|x l IH]; intros H; [reflexivity|].
  cbn [filter]. rewrite (H x (or_introl eq_refl)).
  apply IH. intros y Hy. apply H. now right.
Qed.

Lemma sample_threads_reachable t : reachable (Sample.first_ended t).
Proof.
  unfold Sample.first_ended, Sample.ended, Sample.waiting.
  destruct (Nat.eqb t 0); repeat constructor.
Qed.

(** C5 as stated fails once a listed worker has ended: of two listed
    workers that are not processing, one having returned on a sentinel,
    [idle] counts both, while one live worker is outside [process()]. *)
Lemma idle_counts_ended_worker :
  idle Sample.first_ended (Sample.pool 0 (-1) [0; 1]) = 2 /\
  Claimed.idle Sample.first_ended (Sample.pool 0 (-1) [0; 1]) = 1 /\
  isAlive (Sample.first_ended 0) = false.
Proof. repeat split. Qed.

(** C5, amended: [idle] is the number of listed workers that are alive and
    not inside [communicate()], plus the number of listed workers that
    have ended with [conn] at [None], which every worker that returned on a
    sentinel has.  When all listed workers are alive, [idle] is the number
    of live workers not inside a [process()] call, whatever connections
    they own. *)
Theorem idle_counts_workers_outside_process sigma p :
  (forall t, In t (_threads p) -> reachable (sigma t)) ->
  idle sigma p
  = Claimed.idle sigma p
    + length (filter (fun t => negb (isAlive (sigma t))
                               && conn_is_None (sigma t)) (_threads p)) /\
  ((forall t, In t (_threads p) -> isAlive (sigma t) = true) ->
   idle sigma p = Claimed.idle sigma p) /\
  (forall t, In t (_threads p) -> at_pc (sigma t) = Returned ->
   isAlive (sigma t) = false /\ conn_is_None (sigma t) = true).
Proof.
  intros Hr.
  assert (Hsplit : idle sigma p
      = Claimed.idle sigma p
        + length (filter (fun t => negb (isAlive (sigma t))
                                   && conn_is_None (sigma t)) (_threads p))).
  { unfold idle, Claimed.idle. apply filter_length_split.
    - intros t Ht. destruct (conn_None_iff (sigma t) (Hr t Ht)) as [Ha _].
      destruct (isAlive (sigma t)); cbn.
      + rewrite (Ha eq_refl). now rewrite orb_false_r.
      + reflexivity.
    - intros t _. destruct (isAlive (sigma t)); cbn; [|reflexivity].
      now rewrite andb_false_r. }
  split; [exact Hsplit|]. split.
  - intros Halive. rewrite Hsplit.
    assert (Hnone : filter (fun t => negb (isAlive (sigma t))
                                     && conn_is_None (sigma t)) (_threads p) = []).
    { apply filter_none. intros t Ht. now rewrite (Halive t Ht). }
    rewrite Hnone. cbn. lia.
  - intros t Ht Hpc. destruct (conn_None_iff (sigma t) (Hr t Ht)) as [_ Hn].
    split; [unfold isAlive; now rewrite Hpc|now apply Hn].
Qed.

Lemma idle_counts_workers_outside_process_witness :
  idle SampleWorker.one_busy (Sample.pool 0 (-1) [0; 1; 2])
  = Claimed.idle SampleWorker.one_busy (Sample.pool 0 (-1) [0; 1; 2]) /\
  idle SampleWorker.one_busy (Sample.pool 0 (-1) [0; 1; 2]) = 2 /\
  in_process (SampleWorker.one_busy 0) = true.
Proof.
  destruct (idle_counts_workers_outside_process SampleWorker.one_busy
              (Sample.pool 0 (-1) [0; 1; 2])) as (_ & H & _).
  - intros t _. unfold SampleWorker.one_busy, SampleWorker.processing,
      Sample.waiting. destruct (Nat.eqb t 0); repeat constructor.
  - split; [|split; reflexivity].
    apply H. intros t _. unfold SampleWorker.one_busy.
    destruct (Nat.eqb t 0); reflexivity.
Defined.

End Idle.

(** ** put *)

Section Putting.
Import Py ThreadPool.
Local Open Scope Q_scope.

Lemma Qlt_bool_false x y : Qlt_bool x y = false <-> y <= x.
Proof.
  unfold Qlt_bool. rewrite negb_false_iff. apply Qle_bool_iff.
Qed.

(** C8: with a submission timeout [tmo >= 0] configured, [put] on a full
    bounded queue waits for a slot; it fails with [queue.Full] after [tmo]
    when no slot comes before, and enqueues as soon as one does; on a
    queue that is not full it enqueues at once.  [obj] is any item, the
    sentinel [None] included. *)
Theorem put_full_or_immediate p obj tmo slot :
  _queue_put_timeout p = Some tmo ->
  0 <= tmo ->
  (Queue.full (_queue p) = true ->
     (slot = None -> put p obj slot = Raises Full tmo) /\
     (forall d, slot = Some d -> tmo <= d -> put p obj slot = Raises Full tmo) /\
     (forall d, slot = Some d -> d < tmo ->
        put p obj slot
        = Done (with_queue
                  (Queue.mk (Queue.maxsize (_queue p))
                     (tl (Queue.items (_queue p)) ++ [obj])) p) d)) /\
  (Queue.full (_queue p) = false ->
     put p obj slot
     = Done (with_queue
               (Queue.mk (Queue.maxsize (_queue p))
                  (Queue.items (_queue p) ++ [obj])) p) 0).
Proof.
  intros Htmo Hpos.
  assert (Hneg : Qlt_bool tmo 0 = false) by now apply Qlt_bool_false.
  unfold put, Queue.put. rewrite Htmo, Hneg.
  split.
  - intros Hfull. rewrite Hfull.
    assert (Hb : (0 <? Queue.maxsize (_queue p))%Z = true).
    { unfold Queue.full in Hfull. now apply andb_true_iff in Hfull. }
    rewrite Hb. repeat split.
    + now intros ->.
    + intros d -> Hd. apply Qlt_bool_false in Hd. now rewrite Hd.
    + intros d -> Hd. apply Qlt_bool_iff in Hd. now rewrite Hd.
  - intros Hfull. rewrite Hfull.
    now destruct (0 <? Queue.maxsize (_queue p))%Z.
Qed.

End Putting.

Section PuttingWitness.
Import Py ThreadPool.
Local Open Scope Q_scope.

Lemma put_full_or_immediate_witness :
  put SamplePut.full_pool None None = Raises Full 10 /\
  put SamplePut.full_pool None (Some 3) =
    Done (with_queue (Queue.mk 1 [None]) SamplePut.full_pool) 3 /\
  put (Sample.pool 1 (-1) [0%nat]) None None =
    Done (with_queue (Queue.mk (-1) [None]) (Sample.pool 1 (-1) [0%nat])) 0.
Proof.
  destruct (put_full_or_immediate SamplePut.full_pool None 10 None eq_refl)
    as [H1 _]; [discriminate|].
  destruct (put_full_or_immediate SamplePut.full_pool None 10 (Some 3) eq_refl)
    as [H2 _]; [discriminate|].
  destruct (put_full_or_immediate (Sample.pool 1 (-1) [0%nat]) None 10 None eq_refl)
    as [_ H3]; [discriminate|].
  split; [apply (proj1 (H1 eq_refl)); reflexivity|].
  split; [apply (proj2 (proj2 (H2 eq_refl)) 3 eq_refl); reflexivity|].
  apply H3. reflexivity.
Defined.

End PuttingWitness.

(** ** stop *)

Section StopFacts.
Import Py ThreadPool Stopping.
Local Open Scope Q_scope.


Lemma alive_in_false w t :
  alive_in w t = false -> exists d, ends_at w t = Some d /\ d <= now w.
Proof.
  unfold alive_in. destruct (ends_at w t) as [d|]; [|discriminate].
  intros H. exists d. split; [reflexivity|now apply Qlt_bool_false].
Qed.



End StopFacts.

Section StopBounded.
Import Py ThreadPool Stopping.
Local Open Scope Q_scope.





End StopBounded.

Section StopVisits.
Import Py ThreadPool Stopping.
Local Open Scope Q_scope.









End StopVisits.

Section StopClaims.
Import Py ThreadPool Stopping.
Local Open Scope Q_scope.







(** On a full bounded queue whose workers take nothing, [stop] waits in
    its first put, before any deadline is set. *)
Lemma stop_waits_on_full_queue :
  stop SampleStop.all_blocked (Some 1) SamplePut.full_pool SampleStop.stuck
  = None.
Proof. reflexivity. Qed.



(** The run of the witness: each worker outlives the deadline, has the
    read half of its socket shut down, and is then joined. *)
Lemma stop_forces_blocked_workers :
  exists p' w',
    stop SampleStop.all_blocked (Some 1) (Sample.pool 1 (-1) [0%nat; 1%nat])
         SampleStop.stuck = Some (p', w') /\
    calls w' = [Call_put; Call_put;
                Call_join 1 (Some 1); Call_shutdown 11 true; Call_join 1 None;
                Call_shutdown 11 true; Call_join 0 None] /\
    now w' == 2.
Proof. eexists _, _. split; [reflexivity|]. split; reflexivity. Qed.

(** A worker that is processing a connection but ends by itself within
    the deadline is joined for the whole of it, the join returns when the
    worker ends, and its socket is left alone. *)
Lemma stop_spares_worker_that_ends :
  exists p' w' r,
    stop SampleStop.all_blocked (Some 1) (Sample.pool 1 (-1) [0%nat])
         SampleStop.ending = Some (p', w') /\
    calls w' = [Call_put; Call_join 0 (Some r)] /\
    r == 1 /\
    now w' == 1 # 10.
Proof.
  eexists _, _, _. split; [reflexivity|]. split; [reflexivity|].
  split; reflexivity.
Qed.

End StopClaims.

(** * Further properties of the code *)

(** ** shrink: what the pruning loop does *)

Section PruningClosedForm.
Import Py ThreadPool Pruning.

Lemma list_remove_app_notin x pre rest :
  ~ In x pre -> list_remove x (pre ++ x :: rest) = pre ++ rest.
Proof.
  induction pre as [|y pre IH]; intros Hn; cbn.
  - now rewrite Nat.eqb_refl.
  - destruct (Nat.eqb_spec x y) as [->|Hne].
    + exfalso. apply Hn. now left.
    + rewrite IH; [reflexivity|]. intros Hin. apply Hn. now right.
Qed.

Lemma nth_error_app_here {A} (pre : list A) x rest :
  nth_error (pre ++ x :: rest) (length pre) = Some x.
Proof. induction pre as [|y pre IH]; [reflexivity|exact IH]. Qed.

Lemma skip_length_bounded sigma n : forall l,
  length l <= n -> length (skip sigma l) <= length l.
Proof.
  induction n as [|n IH]; intros l Hl.
  - destruct l; [cbn; lia|cbn in Hl; lia].
  - destruct l as [|t r]; [cbn; lia|].
    cbn in Hl. cbn [skip]. destruct (WorkerThread.isAlive (sigma t)).
    + cbn. specialize (IH r). lia.
    + destruct r as [|u r']; [cbn; lia|].
      cbn in Hl. cbn. specialize (IH r'). lia.
Qed.

Lemma skip_length sigma l : length (skip sigma l) <= length l.
Proof. now apply (skip_length_bounded sigma (length l)). Qed.

Lemma prune_closed sigma fuel : forall pre rest a,
  NoDup (pre ++ rest) ->
  length rest <= fuel ->
  prune fuel sigma (length pre) (pre ++ rest) a
  = (pre ++ skip sigma rest,
     (a - Z.of_nat (length rest - length (skip sigma rest)))%Z).
Proof.
  induction fuel as [|fuel IH]; intros pre rest a Hnd Hlen.
  - destruct rest; [|cbn in Hlen; lia].
    cbn. f_equal; lia.
  - destruct rest as [|t r].
    + cbn. rewrite app_nil_r.
      assert (nth_error pre (length pre) = None) as -> by now apply nth_error_None.
      f_equal; lia.
    + cbn [prune]. rewrite nth_error_app_here. cbn [skip].
      destruct (WorkerThread.isAlive (sigma t)) eqn:Ht.
      * replace (pre ++ t :: r) with ((pre ++ [t]) ++ r) in * by now rewrite <- app_assoc.
        replace (S (length pre)) with (length (pre ++ [t]))
          by (rewrite length_app; cbn; lia).
        rewrite IH; [|exact Hnd|cbn in Hlen; lia].
        rewrite <- app_assoc. cbn. reflexivity.
      * assert (Hnotin : ~ In t pre).
        { intros Hin. apply NoDup_remove_2 in Hnd. apply Hnd.
          apply in_or_app. now left. }
        rewrite (list_remove_app_notin t pre r Hnotin).
        apply NoDup_remove_1 in Hnd.
        destruct r as [|u r'].
        -- rewrite app_nil_r. cbn [skip app length].
           destruct fuel; cbn [prune].
           ++ f_equal; lia.
           ++ assert (nth_error pre (S (length pre)) = None) as ->
                by (apply nth_error_None; lia).
              f_equal; lia.
        -- replace (pre ++ u :: r') with ((pre ++ [u]) ++ r') in * by now rewrite <- app_assoc.
           replace (S (length pre)) with (length (pre ++ [u]))
             by (rewrite length_app; cbn; lia).
           rewrite IH; [|exact Hnd|cbn in Hlen; lia].
           rewrite <- app_assoc. cbn [app].
           pose proof (skip_length sigma r'). f_equal.
           cbn [length]. lia.
Qed.

Lemma skip_no_adjacent_bounded sigma n : forall l,
  length l <= n ->
  no_adjacent_dead sigma l ->
  skip sigma l = filter (fun t => WorkerThread.isAlive (sigma t)) l.
Proof.
  induction n as [|n IH]; intros l Hl.
  - destruct l; [reflexivity|cbn in Hl; lia].
  - destruct l as [|t r]; [reflexivity|].
    cbn in Hl. cbn. intros [Hnext Hrest].
    destruct (WorkerThread.isAlive (sigma t)) eqn:Ht.
    + f_equal. apply IH; [lia|exact Hrest].
    + destruct r as [|u r']; [reflexivity|].
      specialize (Hnext eq_refl). cbn. rewrite Hnext.
      cbn in Hl. f_equal. apply IH; [lia|]. apply Hrest.
Qed.

End PruningClosedForm.

Section PruningExtras.
Import Py ThreadPool Pruning.

Lemma pruning_closed_form_aux sigma p amount :
  NoDup (_threads p) ->
  pruned sigma p amount
  = (skip sigma (_threads p),
     (amount - Z.of_nat (length (_threads p)
                         - length (skip sigma (_threads p))))%Z).
Proof.
  intros Hnd. unfold pruned.
  apply (prune_closed sigma (length (_threads p)) [] (_threads p) amount Hnd).
  apply Nat.le_refl.
Qed.

(** X1: on a list without repetition the loop of lines 266-269 leaves
    exactly [skip]: each worker found not alive is removed and the worker
    behind it is passed over untested; [amount] goes down by the number
    removed. *)
Theorem pruning_closed_form sigma p amount :
  NoDup (_threads p) ->
  pruned sigma p amount
  = (skip sigma (_threads p),
     (amount - Z.of_nat (length (_threads p)
                         - length (skip sigma (_threads p))))%Z).
Proof.
  exact (pruning_closed_form_aux sigma p amount).
Qed.

Lemma pruning_closed_form_witness :
  pruned Sample.two_ended (Sample.pool 1 (-1) [0; 1; 2]) 2 = ([1; 2], 1%Z).
Proof.
  apply (pruning_closed_form Sample.two_ended (Sample.pool 1 (-1) [0; 1; 2]) 2).
  repeat constructor; simpl; intuition discriminate.
Defined.

(** X2: when the list has no repetition and no two workers that are not
    alive stand next to each other, the loop removes every worker that is
    not alive, keeps the others in order, and takes the number of removed
    workers off [amount]. *)
Theorem pruning_complete_without_adjacent_dead sigma p amount :
  NoDup (_threads p) ->
  no_adjacent_dead sigma (_threads p) ->
  pruned sigma p amount
  = (filter (fun t => WorkerThread.isAlive (sigma t)) (_threads p),
     (amount - Z.of_nat (length (_threads p)
                         - live_count sigma (_threads p)))%Z).
Proof.
  intros Hnd Hadj. rewrite (pruning_closed_form_aux sigma p amount Hnd).
  rewrite (skip_no_adjacent_bounded sigma (length (_threads p)) (_threads p)
             (Nat.le_refl _) Hadj).
  reflexivity.
Qed.

Lemma pruning_complete_without_adjacent_dead_witness :
  pruned Sample.first_ended (Sample.pool 1 (-1) [0; 1; 2]) 2 = ([1; 2], 1%Z).
Proof.
  apply (pruning_complete_without_adjacent_dead Sample.first_ended
           (Sample.pool 1 (-1) [0; 1; 2]) 2).
  - repeat constructor; simpl; intuition discriminate.
  - simpl. intuition discriminate.
Defined.

(** X3: whatever the list, the loop removes no worker that is alive, adds
    none, and takes one off [amount] for each worker it removes. *)
Theorem pruning_spares_live_workers sigma p amount :
  incl (fst (pruned sigma p amount)) (_threads p) /\
  (forall t, In t (_threads p) -> WorkerThread.isAlive (sigma t) = true ->
             In t (fst (pruned sigma p amount))) /\
  length (fst (pruned sigma p amount)) <= length (_threads p) /\
  snd (pruned sigma p amount)
  = (amount - Z.of_nat (length (_threads p)
                        - length (fst (pruned sigma p amount))))%Z.
Proof.
  destruct (pruned sigma p amount) as [l a] eqn:E. unfold pruned in E.
  apply prune_spec in E. cbn [fst snd]. tauto.
Qed.

(** X4: [shrink] puts its sentinels without a timeout (line 281): on a
    full bounded queue from which nobody takes an item, a call that has a
    sentinel to put never returns. *)
Theorem shrink_waits_on_full_queue sigma slots p amount :
  Queue.full (_queue p) = true ->
  slots 0 = None ->
  (0 < n_to_remove p (fst (pruned sigma p amount))
                     (snd (pruned sigma p amount)))%Z ->
  shrink sigma slots p amount = None.
Proof.
  intros Hfull Hslot Hn. unfold shrink.
  destruct (pruned sigma p amount) as [l a]. cbn [fst snd] in Hn.
  unfold range_len.
  destruct (Z.to_nat (n_to_remove p l a)) as [|k] eqn:E; [lia|].
  cbn [put_sentinels]. unfold Queue.put. rewrite Hfull, Hslot.
  unfold Queue.full in Hfull. apply andb_true_iff in Hfull.
  destruct Hfull as [-> _]. reflexivity.
Qed.

Lemma shrink_waits_on_full_queue_witness :
  shrink (fun _ => Sample.waiting) (fun _ => None)
         (ThreadPool.mk 0 (-1) [0; 1] (Queue.mk 1 [None]) (Some 10%Q)) 1
  = None.
Proof.
  apply shrink_waits_on_full_queue; [reflexivity|reflexivity|].
  vm_compute. reflexivity.
Defined.

End PruningExtras.

(** ** grow and start *)

Section Spawning.
Import Py ThreadPool Starting.

(** X5: [grow] with nothing to spawn ([amount <= 0], or [max > 0] workers
    or more already listed) returns at once, without sleeping, and leaves
    the pool as it is. *)
Theorem grow_nothing_to_spawn fuel world fresh p amount :
  (amount <= 0)%Z \/
  ((0 < max p)%Z /\ (max p <= Z.of_nat (length (_threads p)))%Z) ->
  exists p',
    grow fuel world fresh p amount = Some (p', 0) /\
    _threads p' = _threads p /\ _queue p' = _queue p /\
    min p' = min p /\ max p' = max p.
Proof.
  intros H.
  assert (Hn : range_len (n_new p amount) = 0).
  { unfold range_len, n_new, budget.
    destruct (Z.ltb_spec 0 (max p)); lia. }
  unfold grow. rewrite Hn. cbn [seq].
  destruct fuel; cbn; rewrite app_nil_r; eexists; repeat split.
Qed.

Lemma grow_nothing_to_spawn_witness :
  exists p',
    grow 0 (fun _ _ => WorkerThread.init) 3 Sample.crowded 5 = Some (p', 0) /\
    _threads p' = _threads Sample.crowded.
Proof.
  destruct (grow_nothing_to_spawn 0 (fun _ _ => WorkerThread.init) 3
              Sample.crowded 5) as (p' & H1 & H2 & _).
  - right. split; [reflexivity|]. vm_compute. discriminate.
  - exists p'. now split.
Defined.

(** X6: [grow] waits without a limit (lines 252-253): while at every test
    some spawned worker has not reported ready, it does not return and the
    list is not extended, however many sleeps are allowed. *)
Theorem grow_waits_for_unready_worker world fresh p amount :
  (forall k, all_ready (world k)
               (seq fresh (range_len (n_new p amount))) = false) ->
  forall fuel, grow fuel world fresh p amount = None.
Proof.
  intros H fuel. unfold grow. now rewrite wait_ready_never.
Qed.

Lemma grow_waits_for_unready_worker_witness :
  grow 100 (fun _ _ => WorkerThread.init) 1 (Sample.pool 1 (-1) [0]) 1 = None.
Proof.
  apply grow_waits_for_unready_worker. intros k. reflexivity.
Defined.

Lemma stays_ready_later world t k j :
  stays_ready world -> ready_at world k t = true -> ready_at world (j + k) t = true.
Proof.
  intros Hs Hr. induction j as [|j IH]; [exact Hr|]. now apply Hs.
Qed.

Lemma wait_each_sound world fuel : forall k ws k',
  stays_ready world ->
  wait_each fuel world k ws = Some k' ->
  k <= k' /\ all_ready (world k') ws = true.
Proof.
  induction fuel as [|fuel IH]; intros k ws k' Hs H.
  - destruct ws; [|discriminate]. injection H as <-. now split.
  - destruct ws as [|t rest]; [injection H as <-; now split|].
    cbn [wait_each] in H.
    destruct (WorkerThread.ready _) eqn:E.
    + destruct (IH _ _ _ Hs H) as [Hle Hr]. split; [exact Hle|].
      unfold all_ready in *. cbn [forallb]. rewrite Hr, andb_true_r.
      change (ready_at world k' t = true).
      replace k' with ((k' - k) + k) by lia.
      now apply (stays_ready_later world t k (k' - k) Hs).
    + destruct (IH _ _ _ Hs H) as [Hle Hr]. split; [lia|exact Hr].
Qed.

Lemma wait_each_complete world fuel : forall k0 k ws,
  all_ready (world k) ws = true ->
  k0 <= k ->
  (k - k0) + length ws <= fuel ->
  exists k', wait_each fuel world k0 ws = Some k' /\ k' <= k.
Proof.
  induction fuel as [|fuel IH]; intros k0 k ws Hr Hle Hf.
  - destruct ws; [|cbn in Hf; lia]. now exists k0.
  - destruct ws as [|t rest]; [now exists k0|].
    cbn [wait_each]. unfold all_ready in *. cbn [forallb] in Hr.
    apply andb_true_iff in Hr.
    destruct Hr as [Ht Hrest]. cbn in Hf.
    destruct (WorkerThread.ready
                (WorkerThread.self (WorkerThread.st (world k0 t)))) eqn:E.
    + apply (IH k0 k rest Hrest Hle). lia.
    + assert (k0 <> k) by (intros ->; congruence).
      apply (IH (S k0) k (t :: rest)); [|lia|cbn; lia].
      cbn [forallb]. now rewrite Ht, Hrest.
Qed.

(** X7: on a pool none of whose listed workers was started before,
    [start] appends [min] new workers (none for [min <= 0]), whatever
    [max] is, and returns once each worker of the list has been seen
    ready: if they are all ready after [k] sleeps, it returns after at
    most [k] sleeps with all of them ready. *)
Theorem start_spawns_min_workers fuel world started fresh p k :
  existsb started (_threads p) = false ->
  stays_ready world ->
  all_ready (world k) (_threads p ++ seq fresh (range_len (min p))) = true ->
  k + length (_threads p ++ seq fresh (range_len (min p))) <= fuel ->
  exists p' k',
    start fuel world started fresh p = Started p' k' /\
    k' <= k /\
    _threads p' = _threads p ++ seq fresh (range_len (min p)) /\
    length (_threads p') = length (_threads p) + Z.to_nat (min p) /\
    all_ready (world k') (_threads p') = true.
Proof.
  intros Hst Hs Hr Hf. unfold start. rewrite Hst.
  destruct (wait_each_complete world fuel 0 k _ Hr (Nat.le_0_l k))
    as (k' & Hw & Hle); [lia|].
  rewrite Hw. eexists _, k'. split; [reflexivity|]. split; [exact Hle|].
  cbn [with_threads _threads]. split; [reflexivity|].
  split; [rewrite length_app, length_seq; reflexivity|].
  now apply (wait_each_sound world fuel 0 _ k' Hs).
Qed.

Lemma start_spawns_min_workers_witness :
  exists p' k',
    start 3 (fun _ _ => Sample.waiting) (fun _ => false) 0
          (Sample.pool 3 1 []) = Started p' k' /\
    _threads p' = [0; 1; 2].
Proof.
  destruct (start_spawns_min_workers 3 (fun _ _ => Sample.waiting)
              (fun _ => false) 0 (Sample.pool 3 1 []) 0)
    as (p' & k' & H1 & _ & H2 & _).
  - reflexivity.
  - intros t k H. exact H.
  - reflexivity.
  - vm_compute. repeat constructor.
  - exists p', k'. split; [exact H1|exact H2].
Defined.

(** X8: [start] is not to be called twice: on the pool a first call
    returned, whose workers were all started, a second call appends [min]
    further workers and then leaves with [RuntimeError] from the first
    [worker.start()], so that the new workers stay in the list without ever
    running. *)
Theorem start_twice_raises fuel world started fresh p p' k
    fuel2 world2 started2 fresh2 :
  start fuel world started fresh p = Started p' k ->
  _threads p' <> [] ->
  (forall t, In t (_threads p') -> started2 t = true) ->
  exists p'',
    start fuel2 world2 started2 fresh2 p' = RuntimeError p'' /\
    _threads p'' = _threads p' ++ seq fresh2 (range_len (min p)) /\
    min p'' = min p.
Proof.
  intros H1 Hne Hstarted.
  assert (Hmin : min p' = min p).
  { unfold start in H1. destruct (existsb started (_threads p)); [discriminate|].
    destruct (wait_each _ _ _ _); [|discriminate]. now injection H1 as <- _. }
  unfold start.
  assert (Hex : existsb started2 (_threads p') = true).
  { destruct (_threads p') as [|t l]; [congruence|].
    cbn. now rewrite (Hstarted t (or_introl eq_refl)). }
  rewrite Hex, Hmin. eexists. repeat split. exact Hmin.
Qed.

Lemma start_twice_raises_witness :
  exists p'',
    start 0 (fun _ _ => Sample.waiting) (fun _ => true) 3
          (with_threads [0; 1; 2] (Sample.pool 3 1 [])) = RuntimeError p'' /\
    _threads p'' = [0; 1; 2; 3; 4; 5].
Proof.
  destruct (start_twice_raises 3 (fun _ _ => Sample.waiting) (fun _ => false) 0
              (Sample.pool 3 1 []) (with_threads [0; 1; 2] (Sample.pool 3 1 [])) 0
              0 (fun _ _ => Sample.waiting) (fun _ => true) 3)
    as (p'' & H1 & H2 & _).
  - reflexivity.
  - discriminate.
  - reflexivity.
  - exists p''. split; [exact H1|exact H2].
Defined.

End Spawning.

(** ** run: the thread from start to end *)

Section Running.
Import Py WorkerThread Turn.

Lemma run_app moves more :
  run (moves ++ more) = fold_left move more (run moves).
Proof. unfold run. now rewrite fold_left_app. Qed.

Lemma ended_stays th more : isAlive th = false -> fold_left move more th = th.
Proof.
  intros H. induction more as [|m more IH]; [reflexivity|].
  cbn [fold_left]. unfold move at 2, step.
  destruct th as [p s]. cbn [at_pc] in *. unfold isAlive in H. cbn in H.
  destruct p; try discriminate; exact IH.
Qed.

(** X9: at every cut of [run], whatever the queue, the sockets and the
    connections did, the owned-set holds each socket once, each entry is
    stored under the socket of its own connection, and [self.conn] is set
    exactly while the thread is inside [communicate()] of [process_conns]
    (a thread that has ended by an exception aside). *)
Theorem run_keeps_owned_set moves : Owned.inv (run moves).
Proof. apply reachable_inv, reachable_run. now exists moves. Qed.

(** X10: a worker waiting in [requests.get] that takes the sentinel
    returns from [run] at once (lines 173-174): the connections it owns
    stay in its owned-set, none of them is flushed or closed, and nothing
    it is given afterwards changes it. *)
Theorem sentinel_ends_worker moves srv env more :
  at_pc (run moves) = AtGet ->
  run (moves ++ (srv, env, Item None) :: more)
  = mkThread Returned (st (run moves)).
Proof.
  intros Hpc. rewrite run_app. cbn [fold_left]. unfold move at 2, step.
  cbn [fst snd]. rewrite Hpc. now apply ended_stays.
Qed.

Lemma sentinel_ends_worker_witness :
  run ([(Sample.srv, Sample.quiet, Empty)]
       ++ (Sample.srv, Sample.quiet, Item None)
          :: [(Sample.srv, Sample.quiet, Empty)])
  = mkThread Returned (st (run [(Sample.srv, Sample.quiet, Empty)])).
Proof.
  apply (sentinel_ends_worker [(Sample.srv, Sample.quiet, Empty)]).
  reflexivity.
Defined.

(** X11: when [communicate()] raises [KeyboardInterrupt] or [SystemExit]
    inside [process_conns], the exception is stored in [server.interrupt]
    and the thread ends (lines 179-180): the connection is not closed, its
    entry and all others stay in the owned-set, the remaining ready
    sockets are not served, and [self.conn] keeps naming the
    connection. *)
Theorem interrupt_ends_worker moves srv env g more c rest e :
  at_pc (run moves) = InCommunicate c rest ->
  snd (communicate env c) = Some e ->
  is_Exception e = false ->
  exists s',
    run (moves ++ (srv, env, g) :: more) = mkThread Interrupted s' /\
    interrupt s' = Some e /\
    conn_socks s' = conn_socks (st (run moves)) /\
    log s' = log (st (run moves)) /\
    conn (self s')
    = Some (Conn.with_counters c (fst (communicate env c))).
Proof.
  intros Hpc He Hexc. rewrite run_app. cbn [fold_left].
  unfold move at 2, step. cbn [fst snd]. rewrite Hpc.
  unfold end_process. rewrite He, Hexc.
  unfold bind, modify, raise, continue_at, leave. rewrite Hexc.
  eexists. split; [apply ended_stays; reflexivity|].
  cbn. repeat split.
Qed.

End Running.

Section RunningWitness.
Import Py WorkerThread Turn.

Lemma interrupt_ends_worker_witness :
  exists s',
    run (SampleMore.into_c1
         ++ (Sample.srv, SampleMore.exiting, Empty) :: [])
    = mkThread Interrupted s' /\
    interrupt s' = Some SystemExit /\
    log s' = [Ev_communicate 1].
Proof.
  destruct (interrupt_ends_worker SampleMore.into_c1 Sample.srv
              SampleMore.exiting Empty [] SampleWorker.c1 [] SystemExit)
    as (s' & H1 & H2 & _ & H4 & _); try reflexivity.
  exists s'. split; [exact H1|]. split; [exact H2|exact H4].
Defined.

End RunningWitness.

(** ** process_conns: the whole loop *)

Section ServingLoop.
Import Py WorkerThread Turn.

Lemma rlist_filter env d :
  rlist env d
  = filter (readable env)
      (filter (fun sck => (-1 <? fileno env sck)%Z) (Dict.keys d)).
Proof.
  unfold rlist.
  destruct (filter (fun sck => (-1 <? fileno env sck)%Z) (Dict.keys d));
    reflexivity.
Qed.

Lemma rlist_In env d k :
  In k (rlist env d) <->
  In k (Dict.keys d) /\ (-1 < fileno env k)%Z /\ readable env k = true.
Proof.
  rewrite rlist_filter, !filter_In, Z.ltb_lt. tauto.
Qed.

Lemma rlist_NoDup env d : NoDup (Dict.keys d) -> NoDup (rlist env d).
Proof.
  intros H. rewrite rlist_filter. now do 2 apply NoDup_filter.
Qed.

Lemma flat_map_same {A B} (f g : A -> list B) l :
  (forall x, In x l -> f x = g x) -> flat_map f l = flat_map g l.
Proof.
  induction l as [|x l IH]; intros H; [reflexivity|].
  cbn. rewrite (H x (or_introl eq_refl)). f_equal.
  apply IH. intros y Hy. apply H. now right.
Qed.

(** One turn of the loop on a connection whose [communicate()] is not
    interrupted, when statistics are not switched on during the call. *)
Lemma process_one_runs env s sock c t0 :
  Owned.ok (conn_socks s) ->
  Dict.get (conn_socks s) sock = Some (c, t0) ->
  (forall e, snd (communicate env c) = Some e -> is_Exception e = true) ->
  (enabled_at_close env c = true -> enabled_at_start env c = true) ->
  exists s',
    process_one env sock s = (s', Ok tt) /\
    Owned.ok (conn_socks s') /\
    (forall k, k <> sock ->
       Dict.get (conn_socks s') k = Dict.get (conn_socks s) k) /\
    interrupt s' = interrupt s /\
    log s' = log s ++ served env c.
Proof.
  intros Hok Hget Hexc Hflag.
  pose proof (owned_socket _ _ _ _ Hok Hget) as Hsock.
  destruct (begin_process_found env sock s c t0 Hget)
    as (s1 & Hb & Hd & Hi & Hl & Hc & Ht0).
  assert (Ht : enabled_at_close env c = true -> start_time (self s1) <> None).
  { apply (timer_after_begin env c s s1 Ht0). intros H. left. now apply Hflag. }
  unfold served.
  destruct (communicate env c) as [cnt [e|]] eqn:Hcomm; cbn [snd fst] in *.
  - destruct (end_process_raised env c cnt e s1 (Hexc e eq_refl))
      as (s' & He & Hd' & Hi' & Hl' & _).
    { rewrite Hd, Hsock, Hget. discriminate. }
    { exact Ht. }
    exists s'. split.
    { unfold process_one, bind. now rewrite Hb, Hcomm, He. }
    rewrite Hd', Hd, Hsock.
    split; [now apply ok_remove|].
    split; [intros k Hk; now apply get_remove_other|].
    split; [congruence|].
    rewrite Hl', Hl, <- app_assoc. reflexivity.
  - destruct (end_process_returned env c cnt s1 Ht)
      as (s' & He & Hd' & Hi' & Hl' & _).
    exists s'. split.
    { unfold process_one, bind. now rewrite Hb, Hcomm, He. }
    rewrite Hd', Hd.
    split.
    { rewrite <- (socket_with_counters c cnt). now apply ok_set. }
    rewrite Hsock.
    split; [intros k Hk; now apply get_set_other|].
    split; [congruence|].
    now rewrite Hl', Hl.
Qed.

Lemma for_each_process env l : forall s,
  Owned.ok (conn_socks s) ->
  NoDup l ->
  (forall k, In k l -> Dict.get (conn_socks s) k <> None) ->
  (forall k c t e, In k l -> Dict.get (conn_socks s) k = Some (c, t) ->
     snd (communicate env c) = Some e -> is_Exception e = true) ->
  (forall k c t, In k l -> Dict.get (conn_socks s) k = Some (c, t) ->
     enabled_at_close env c = true -> enabled_at_start env c = true) ->
  exists s',
    for_each (process_one env) l s = (s', Ok tt) /\
    Owned.ok (conn_socks s') /\
    (forall k, ~ In k l ->
       Dict.get (conn_socks s') k = Dict.get (conn_socks s) k) /\
    interrupt s' = interrupt s /\
    log s' = log s
             ++ flat_map (served env)
                  (flat_map (fun k => match Dict.get (conn_socks s) k with
                                      | Some (c, _) => [c]
                                      | None => []
                                      end) l).
Proof.
  induction l as [|k l IH]; intros s Hok Hnd Hin Hexc Hflag.
  - exists s. cbn. rewrite app_nil_r.
    split; [reflexivity|]. split; [exact Hok|]. now split.
  - inversion Hnd as [|? ? Hk Hl]; subst.
    destruct (Dict.get (conn_socks s) k) as [[c t0]|] eqn:Hget;
      [|now apply (Hin k (or_introl eq_refl)) in Hget].
    destruct (process_one_runs env s k c t0 Hok Hget)
      as (s1 & Hp & Hok1 & Hother & Hi1 & Hl1).
    { intros e. now apply (Hexc k c t0 e (or_introl eq_refl)). }
    { now apply (Hflag k c t0 (or_introl eq_refl)). }
    assert (Hsame : forall k', In k' l ->
              Dict.get (conn_socks s1) k' = Dict.get (conn_socks s) k').
    { intros k' Hk'. apply Hother. intros ->. contradiction. }
    destruct (IH s1 Hok1 Hl) as (s' & Hf & Hok' & Hother' & Hi' & Hl').
    + intros k' Hk'. rewrite (Hsame k' Hk'). apply Hin. now right.
    + intros k' c' t' e Hk' Hg'. rewrite (Hsame k' Hk') in Hg'.
      apply (Hexc k' c' t' e); [now right|exact Hg'].
    + intros k' c' t' Hk' Hg'. rewrite (Hsame k' Hk') in Hg'.
      apply (Hflag k' c' t'); [now right|exact Hg'].
    + exists s'. split.
      { cbn [for_each]. unfold bind at 1. now rewrite Hp. }
      split; [exact Hok'|]. split.
      { intros k' Hk'. rewrite Hother'; [|intros H; apply Hk'; now right].
        apply Hother. intros ->. apply Hk'. now left. }
      split; [congruence|].
      rewrite Hl', Hl1, <- app_assoc. f_equal.
      cbn [flat_map]. rewrite Hget. cbn [flat_map app].
      do 2 f_equal. apply flat_map_same. intros k' Hk'.
      now rewrite (Hsame k' Hk').
Qed.

(** X12: when no [communicate()] is interrupted, and
    [server.stats['Enabled']], which lines 147 and 155 read anew for each
    connection, is never found on at line 155 after it was found off at
    line 147, [process_conns] returns normally after serving exactly the
    connections stored under sockets that have a valid descriptor and are
    ready to read, each once, in the order of the owned-set: one call of
    [communicate()] each, followed by [close()] and the removal when it
    raised.  Every other entry, a closed socket's included, is left as it
    is, and the owned-set stays well formed. *)
Theorem process_conns_serves_ready env s :
  Owned.ok (conn_socks s) ->
  (forall k c t e, Dict.get (conn_socks s) k = Some (c, t) ->
     snd (communicate env c) = Some e -> is_Exception e = true) ->
  (forall k c t, Dict.get (conn_socks s) k = Some (c, t) ->
     enabled_at_close env c = true -> enabled_at_start env c = true) ->
  exists s',
    process_conns env s = (s', Ok tt) /\
    Owned.ok (conn_socks s') /\
    log s' = log s ++ flat_map (served env) (ready_conns env (conn_socks s)) /\
    (forall k, ((fileno env k <= -1)%Z \/ readable env k = false) ->
       Dict.get (conn_socks s') k = Dict.get (conn_socks s) k) /\
    interrupt s' = interrupt s.
Proof.
  intros Hok Hexc Hflag. unfold process_conns, ready_conns.
  destruct (for_each_process env (rlist env (conn_socks s)) s Hok)
    as (s' & Hf & Hok' & Hother & Hi & Hl).
  - apply rlist_NoDup, Hok.
  - intros k Hk. apply rlist_In in Hk. destruct Hk as [Hk _].
    intros H. now apply get_None_keys in H.
  - intros k c t e _. apply Hexc.
  - intros k c t _. apply Hflag.
  - exists s'. split; [exact Hf|]. split; [exact Hok'|].
    split; [exact Hl|]. split; [|exact Hi].
    intros k Hk. apply Hother. intros Hin. apply rlist_In in Hin.
    destruct Hin as (_ & Hv & Hr). destruct Hk; [lia|congruence].
Qed.

End ServingLoop.

Section ServingWitness.
Import Py WorkerThread Turn.

Lemma process_conns_serves_ready_witness :
  exists s',
    process_conns SampleMore.one_closed SampleWorker.owning
      = (s', Ok tt) /\
    log s' = [Ev_communicate 2] /\
    Dict.get (conn_socks s') 11 = Some (SampleWorker.c1, 0%Q).
Proof.
  destruct (process_conns_serves_ready SampleMore.one_closed
              SampleWorker.owning owning_ok) as (s' & H1 & _ & H2 & H3 & _).
  - intros k c t e _ H. discriminate H.
  - intros k c t _ _. reflexivity.
  - exists s'. split; [exact H1|]. split; [exact H2|].
    rewrite (H3 11); [reflexivity|]. left. vm_compute. discriminate.
Defined.

End ServingWitness.

(** ** One turn of the loop of run *)

Section Turns.
Import Py WorkerThread Turn.

Lemma steps_add a b srv env g th :
  steps (a + b) srv env g th = steps b srv env g (steps a srv env g th).
Proof.
  revert th. induction a as [|a IH]; intros th; [reflexivity|]. cbn. apply IH.
Qed.

Lemma steps_ended n srv env g th :
  isAlive th = false -> steps n srv env g th = th.
Proof.
  intros H. induction n as [|n IH]; [reflexivity|].
  cbn [steps]. assert (Hs : step srv env g th = th).
  { destruct th as [p s]. unfold isAlive in H. cbn in H. unfold step. cbn.
    destruct p; try discriminate; reflexivity. }
  now rewrite Hs.
Qed.

Lemma leave_ended e s : isAlive (leave e s) = false.
Proof. apply leave_keeps. Qed.

Lemma steps_loop srv env g rl : forall s,
  steps (2 * length rl + 1) srv env g (mkThread (InLoop rl) s)
  = continue_at AtSweep (for_each (process_one env) rl s).
Proof.
  induction rl as [|k l IH]; intros s; [reflexivity|].
  replace (2 * length (k :: l) + 1) with (S (S (2 * length l + 1)))
    by (cbn [length]; lia).
  cbn [steps]. rewrite step_twice_process_one.
  cbn [for_each]. unfold bind.
  destruct (process_one env k s) as [s1 [[]|e]]; cbn [continue_at].
  - apply IH.
  - apply steps_ended, leave_ended.
Qed.

(** X13: the loop of [run] is its body repeated: from the cut before
    [requests.get], for an item that is not the sentinel (or none), the
    moves up to the next such cut do what storing the item, then
    [process_conns], then the expiry sweep do, and an exception that
    leaves either of them ends the thread. *)
Theorem run_turn srv env g s :
  g <> Item None ->
  steps (2 * length (rlist env (conn_socks (take env g s))) + 3) srv env g
        (mkThread AtGet s)
  = continue_at AtGet (serve_and_sweep srv env (take env g s)).
Proof.
  intros Hg.
  replace (2 * length (rlist env (conn_socks (take env g s))) + 3)
    with (S ((2 * length (rlist env (conn_socks (take env g s))) + 1) + 1))
    by lia.
  cbn [steps].
  assert (H1 : step srv env g (mkThread AtGet s)
               = mkThread (InLoop (rlist env (conn_socks (take env g s))))
                          (take env g s)).
  { unfold step, take. cbn [at_pc st].
    destruct g as [|[c|]]; [reflexivity|reflexivity|congruence]. }
  rewrite H1, steps_add, steps_loop.
  unfold serve_and_sweep, bind, process_conns, sweep.
  destruct (for_each (process_one env) _ (take env g s)) as [s1 [[]|e]];
    cbn [continue_at steps].
  - reflexivity.
  - unfold leave. destruct (is_Exception e); reflexivity.
Qed.

Lemma run_turn_witness :
  steps 5 Sample.srv SampleMore.one_closed Empty
        (mkThread AtGet SampleWorker.owning)
  = continue_at AtGet
      (serve_and_sweep Sample.srv SampleMore.one_closed SampleWorker.owning).
Proof.
  apply (run_turn Sample.srv SampleMore.one_closed Empty SampleWorker.owning).
  discriminate.
Defined.

End Turns.

(** ** Statistics: what a served connection adds *)

Section Banking.
Import Py WorkerThread.
Local Open Scope Q_scope.

(** X14: serving one connection with statistics enabled (at line 147 and
    at line 155) adds to the worker's totals the connection's own counters
    as they stand after the call, which are the counts of the connection's
    whole life and not of this call, and the time between the clock
    readings of lines 109 and 117; it clears the timer and [self.conn].
    With statistics disabled at line 155 the totals do not move, and a
    timer started at line 147 is left running. *)
Theorem process_one_banks env s sock c t0 :
  Owned.ok (conn_socks s) ->
  Dict.get (conn_socks s) sock = Some (c, t0) ->
  (forall e, snd (communicate env c) = Some e -> is_Exception e = true) ->
  (enabled_at_close env c = true -> enabled_at_start env c = true) ->
  exists s',
    process_one env sock s = (s', Ok tt) /\
    (enabled_at_close env c = true ->
     self s'
     = mkAttrs (ready (self s)) None
         (requests_seen (self s)
          + Conn.requests_seen (Conn.with_counters c (fst (communicate env c))))%Z
         (bytes_read (self s)
          + Conn.rfile_bytes_read (Conn.with_counters c (fst (communicate env c))))%Z
         (bytes_written (self s)
          + Conn.wfile_bytes_written (Conn.with_counters c (fst (communicate env c))))%Z
         None
         (work_time (self s) + (t_close env c - t_start env c))) /\
    (enabled_at_close env c = false ->
     self s'
     = with_conn None
         (if enabled_at_start env c
          then with_start_time (Some (t_start env c)) (self s)
          else self s)).
Proof.
  intros Hok Hget Hexc Hflag.
  pose proof (owned_socket _ _ _ _ Hok Hget) as Hsock.
  unfold process_one, begin_process, bind. rewrite Hget.
  unfold modify, log_start_stats, emit, ret.
  destruct (enabled_at_close env c) eqn:Hcl;
    [rewrite (Hflag eq_refl)|destruct (enabled_at_start env c)];
    cbv beta iota zeta;
    unfold end_process, bind, modify, log_close_stats, emit, raise, pop_conn,
      Dict.pop; rewrite Hcl;
    destruct (communicate env c) as [cnt [e|]]; cbn [fst snd] in *;
    try rewrite (Hexc e eq_refl);
    cbn [set_self set_conn_socks conn_socks self log interrupt with_conn
         with_start_time conn start_time];
    try rewrite socket_with_counters, Hsock, Hget;
    cbn [set_self set_conn_socks conn_socks self log interrupt with_conn
         with_start_time conn start_time ready requests_seen bytes_read
         bytes_written work_time];
    eexists; (split; [reflexivity|]); split; intros H;
    try discriminate H; cbn; reflexivity.
Qed.

End Banking.

Section BankingMore.
Import Py WorkerThread.
Local Open Scope Q_scope.

Lemma process_one_banks_witness :
  exists s',
    process_one SampleMore.one_closed 12 SampleWorker.owning
      = (s', Ok tt) /\
    bytes_read (self s') = 5%Z /\
    work_time (self s') = 0 + (3 - 1).
Proof.
  destruct (process_one_banks SampleMore.one_closed
              SampleWorker.owning 12%nat SampleWorker.c2 0 owning_ok eq_refl)
    as (s' & H1 & H2 & _).
  - intros e H. discriminate H.
  - reflexivity.
  - exists s'. split; [exact H1|]. rewrite (H2 eq_refl). split; reflexivity.
Defined.

(** X15: banking changes no figure: for a worker inside [communicate()]
    with its timer running, every entry of [self.stats] read just before
    [log_close_stats] at time [now] has the same value when read at any
    time after it, until the next connection is served. *)
Theorem banking_keeps_figures now later s c t0 :
  conn (self s) = Some c ->
  start_time (self s) = Some t0 ->
  exists s',
    log_close_stats true now s = (s', Ok tt) /\
    stat_Requests (self s') = stat_Requests (self s) /\
    stat_Bytes_Read (self s') = stat_Bytes_Read (self s) /\
    stat_Bytes_Written (self s') = stat_Bytes_Written (self s) /\
    stat_Work_Time (self s') later = stat_Work_Time (self s) now /\
    stat_Read_Throughput (self s') later = stat_Read_Throughput (self s) now /\
    stat_Write_Throughput (self s') later = stat_Write_Throughput (self s) now.
Proof.
  intros Hc Ht. unfold log_close_stats. rewrite Hc, Ht.
  eexists. split; [reflexivity|].
  unfold stat_Read_Throughput, stat_Write_Throughput, divisor,
    stat_Requests, stat_Bytes_Read, stat_Bytes_Written, stat_Work_Time,
    live_part.
  cbn [set_self self start_time conn requests_seen bytes_read bytes_written
       work_time].
  rewrite Hc, Ht. cbn [map_result]. rewrite !Z.add_0_r.
  repeat (split; [reflexivity|]). reflexivity.
Qed.

Lemma banking_keeps_figures_witness :
  exists s',
    log_close_stats true 5
      (mkState SampleStats.busy [] None []) = (s', Ok tt) /\
    stat_Bytes_Read (self s') = Ok 17%Z /\
    stat_Work_Time (self s') 9 = 4 + (5 - 3).
Proof.
  destruct (banking_keeps_figures 5 9
              (mkState SampleStats.busy [] None []) SampleStats.busy_conn 3
              eq_refl eq_refl) as (s' & H1 & _ & H2 & _ & H3 & _).
  exists s'. split; [exact H1|]. split.
  - rewrite H2. reflexivity.
  - rewrite H3. reflexivity.
Defined.

End BankingMore.

Section SweepWitness.
Import Py WorkerThread.
Local Open Scope Q_scope.

Lemma mixed_ok : Owned.ok (conn_socks SampleSweep.mixed).
Proof.
  split.
  - repeat constructor; simpl; intuition discriminate.
  - intros k c t [H|[H|[]]]; injection H as <- <- _; reflexivity.
Qed.

Lemma sweep_retires_expired_witness :
  exists s',
    close_conns SampleMore.exiting
      (get_expired_conns Sample.srv (conn_socks SampleSweep.mixed) 20)
      SampleSweep.mixed = (s', Ok tt) /\
    Dict.get (conn_socks s') 11 = None /\
    Dict.get (conn_socks s') 12 = Some (SampleWorker.c2, 15).
Proof.
  destruct (sweep_retires_expired Sample.srv SampleMore.exiting
              SampleSweep.mixed 20 mixed_ok) as (s' & H1 & H2).
  - intros c _. reflexivity.
  - exists s'. split; [exact H1|]. split.
    + apply (H2 11%nat SampleWorker.c1 0 eq_refl). reflexivity.
    + apply (H2 12%nat SampleWorker.c2 15 eq_refl). vm_compute. discriminate.
Defined.

End SweepWitness.

(** ** stop and put: the calls they make *)

Section SentinelPuts.
Import Py ThreadPool.


End SentinelPuts.

Section StopCalling.
Import Py ThreadPool StopCalls.
Local Open Scope Q_scope.





(** X18: on a queue without a bound [put] never waits and never fails,
    whatever timeout is configured: the item, a sentinel included, goes to
    the end of the queue at once and [qsize] grows by one. *)
Theorem put_unbounded_never_waits p obj slot :
  (Queue.maxsize (_queue p) <= 0)%Z ->
  exists p',
    put p obj slot = Done p' 0 /\
    Queue.items (_queue p') = Queue.items (_queue p) ++ [obj] /\
    qsize p' = S (qsize p) /\
    _threads p' = _threads p.
Proof.
  intros Hq. unfold put, Queue.put.
  destruct (Z.ltb_spec 0 (Queue.maxsize (_queue p))); [lia|].
  eexists. split; [reflexivity|].
  unfold qsize, Queue.qsize. cbn. rewrite length_app. cbn.
  repeat split. lia.
Qed.

Lemma put_unbounded_never_waits_witness :
  exists p',
    put (Sample.pool 1 (-1) [0%nat]) None None = Done p' 0 /\
    qsize p' = 1%nat.
Proof.
  destruct (put_unbounded_never_waits (Sample.pool 1 (-1) [0%nat]) None None)
    as (p' & H1 & _ & H2 & _).
  - vm_compute. discriminate.
  - exists p'. split; [exact H1|exact H2].
Defined.

End StopCalling.

(** ** The ready flag *)

Section Readiness.
Import Py WorkerThread Turn.

Lemma log_close_stats_ready enabled now s s' r :
  log_close_stats enabled now s = (s', r) -> ready (self s') = ready (self s).
Proof.
  unfold log_close_stats. destruct enabled.
  - destruct (conn (self s)); [destruct (start_time (self s))|];
      intros [= <- _]; reflexivity.
  - intros [= <- _]. reflexivity.
Qed.

Lemma end_process_ready env c out s s' r :
  end_process env c out s = (s', r) -> ready (self s') = ready (self s).
Proof.
  destruct out as [cnt o]. unfold end_process. cbn [fst snd].
  unfold bind at 1, modify at 1.
  set (s0 := set_self _ s).
  assert (Hs0 : ready (self s0) = ready (self s)) by reflexivity.
  clearbody s0. unfold bind at 1.
  set (m := match o with Some e => _ | None => _ end).
  assert (Hm : forall s1 r1, m s0 = (s1, r1) -> ready (self s1) = ready (self s0)).
  { subst m. intros s1 r1 H. destruct o as [e|].
    - destruct (is_Exception e).
      + unfold bind, emit, pop_conn, Dict.pop in H. cbn in H.
        destruct (Dict.get (conn_socks s0) _); injection H as <- _; reflexivity.
      + injection H as <- _. reflexivity.
    - unfold modify in H. injection H as <- _. reflexivity. }
  clearbody m. destruct (m s0) as [s1 [[]|e]] eqn:E.
  - unfold bind.
    destruct (log_close_stats _ (t_close env c) s1) as [s2 [[]|e]] eqn:E2.
    + unfold modify. intros [= <- <-]. cbn.
      apply log_close_stats_ready in E2. rewrite E2, (Hm _ _ eq_refl). exact Hs0.
    + intros [= <- <-]. apply log_close_stats_ready in E2.
      rewrite E2, (Hm _ _ eq_refl). exact Hs0.
  - intros [= <- <-]. rewrite (Hm _ _ eq_refl). exact Hs0.
Qed.

Lemma leave_ready e s : ready (self (st (leave e s))) = ready (self s).
Proof. unfold leave. now destruct (is_Exception e). Qed.

Lemma step_ready srv env g th :
  ready (self (st th)) = true -> ready (self (st (step srv env g th))) = true.
Proof.
  destruct th as [p s]. unfold step. cbn [at_pc st]. intros H.
  destruct p as [| |rl|c rest| | | |e]; try exact H.
  - reflexivity.
  - destruct g as [|[c|]]; exact H.
  - destruct rl as [|sock rest]; [exact H|].
    unfold begin_process.
    destruct (Dict.get (conn_socks s) sock) as [[c t0]|].
    + unfold bind, modify, log_start_stats, emit, ret.
      destruct (enabled_at_start env c); exact H.
    + rewrite leave_ready. exact H.
  - destruct (end_process env c (communicate env c) s) as [s' [[]|e]] eqn:E;
      apply end_process_ready in E; cbn [continue_at];
      [|rewrite leave_ready]; cbn; congruence.
  - destruct (close_conns env _ s) as [s' [[]|e]] eqn:E;
      apply close_conns_keeps in E; destruct E as (E1 & _);
      cbn [continue_at]; [|rewrite leave_ready]; cbn; congruence.
Qed.

(** X19: a worker reports ready from its first move on (line 165) and
    never takes it back, whatever happens to it afterwards; before its
    first move it is not ready. *)
Theorem run_ready moves :
  ready (self (st (run moves))) = match moves with [] => false | _ => true end.
Proof.
  destruct moves as [|m moves]; [reflexivity|].
  unfold run. cbn [fold_left].
  assert (H : ready (self (st (step (fst (fst m)) (snd (fst m)) (snd m) init)))
              = true) by reflexivity.
  revert H. generalize (step (fst (fst m)) (snd (fst m)) (snd m) init).
  induction moves as [|m' moves IH]; intros th H; [exact H|].
  cbn [fold_left]. apply IH. now apply step_ready.
Qed.

End Readiness.

(** ** Statistics switched on or off during a call *)

Section Switching.
Import Py WorkerThread.

Lemma taking_both_owning :
  run SampleMore.taking_both = mkThread AtGet SampleWorker.owning.
Proof. reflexivity. Qed.

Lemma process_one_stats_switched_on_witness :
  exists s',
    run SampleMore.served_while_switched_on = mkThread (Crashed TypeError) s' /\
    Dict.get (conn_socks s') 11 = None /\
    Dict.get (conn_socks s') 12 = Some (SampleWorker.c2, 0%Q) /\
    log s' = Owned.retired SampleWorker.c1 /\
    conn (self s') = Some SampleWorker.c1.
Proof.
  destruct (process_one_stats_switched_on SampleMore.switched_on
              SampleWorker.owning 11 SampleWorker.c1 0%Q owning_ok
              eq_refl eq_refl eq_refl eq_refl)
    as (s' & _ & Hraised & _ & Hother & Hconn & _ & Hstep & _).
  - intros e H. injection H as <-. reflexivity.
  - exists s'. split.
    { unfold SampleMore.served_while_switched_on. rewrite run_app.
      rewrite taking_both_owning. cbn [fold_left].
      apply (Hstep Sample.srv Empty Empty [12]). }
    destruct (Hraised Error eq_refl) as [H1 H2].
    split; [exact H1|]. split; [rewrite (Hother 12); [reflexivity|discriminate]|].
    split; [exact H2|exact Hconn].
Defined.

(** Statistics switched off during the service of [c2]: the timer
    started at line 147 is not stopped, [self.conn] is cleared, and a
    sample of the byte figures or of a throughput taken from then on
    raises [AttributeError]. *)
Lemma stats_switched_off_leaves_timer :
  exists s',
    run (SampleMore.taking_both ++
         [(Sample.srv, SampleMore.switched_off, Empty);
          (Sample.srv, SampleMore.switched_off, Empty);
          (Sample.srv, SampleMore.switched_off, Empty)])
    = mkThread (InLoop []) s' /\
    conn (self s') = None /\
    start_time (self s') = Some 1%Q /\
    stat_Bytes_Read (self s') = Raise AttributeError /\
    stat_Read_Throughput (self s') 5 = Raise AttributeError.
Proof.
  eexists. split; [reflexivity|]. split; [reflexivity|].
  split; [reflexivity|]. split; reflexivity.
Qed.

End Switching.
